(** * web-info: the probe workers and scan loops of findingnemo.py,
      server_recon.py and info.py

    The three scripts are embedded as functions over an explicit model of
    the outside world: the HTTP library and the socket layer are oracles
    that either return a value or raise a Python exception, the thread pool
    is a list of completed futures, and the interactive prompts read from a
    list of input lines. *)

From Stdlib Require Import ZArith Ascii String List Lia Permutation.
From stdpp Require Import base list strings gmap pretty.
Import ListNotations.

Local Open Scope Z_scope.

(** ** Python strings and exceptions *)

Module Py.

(** Python [str] values are modelled by [string]: sequences of code points
    below 256 (Latin-1).  The three string methods the scripts use are
    written for that range. *)

(** [c.lower()] on one code point: A-Z and the Latin-1 capitals
    0xC0-0xDE (without the multiplication sign 0xD7) move up by 32. *)
Definition lower_char (c : ascii) : ascii :=
  let n := N_of_ascii c in
  if ((65 <=? n) && (n <=? 90))%N then ascii_of_N (n + 32)
  else if ((192 <=? n) && (n <=? 222) && negb (n =? 215))%N
       then ascii_of_N (n + 32)
  else c.

(** [s.lower()] *)
Fixpoint lower (s : string) : string :=
  match s with
  | EmptyString => EmptyString
  | String c s' => String (lower_char c) (lower s')
  end.

(** [c.isspace()] for code points below 256. *)
Definition isspace (c : ascii) : bool :=
  let n := N_of_ascii c in
  (((9 <=? n) && (n <=? 13)) || ((28 <=? n) && (n <=? 32))
   || (n =? 133) || (n =? 160))%N.

(** [s.lstrip()] *)
Fixpoint lstrip (s : string) : string :=
  match s with
  | EmptyString => EmptyString
  | String c s' => if isspace c then lstrip s' else s
  end.

(** [s.rstrip()] *)
Fixpoint rstrip (s : string) : string :=
  match s with
  | EmptyString => EmptyString
  | String c s' =>
      match rstrip s' with
      | EmptyString => if isspace c then EmptyString else String c EmptyString
      | r => String c r
      end
  end.

(** [s.strip()] *)
Definition strip (s : string) : string := rstrip (lstrip s).

(** [s.startswith(p)] *)
Fixpoint startswith (p s : string) : bool :=
  match p, s with
  | EmptyString, _ => true
  | String a p', String b s' => if ascii_dec a b then startswith p' s' else false
  | String _ _, EmptyString => false
  end.

(** [s.startswith((p1, p2, ...))] *)
Definition startswith_any (ps : list string) (s : string) : bool :=
  existsb (fun p => startswith p s) ps.

(** [sub in s]: substring containment. *)
Fixpoint contains (sub s : string) : bool :=
  startswith sub s ||
  match s with
  | EmptyString => false
  | String _ s' => contains sub s'
  end.

(** [template.format(arg)] for a template with positional [{}] fields and
    no other braces: the first [{}] is replaced by [arg].  (The platform
    table below has exactly one [{}] in every template.) *)
Fixpoint format1 (template arg : string) : string :=
  match template with
  | EmptyString => EmptyString
  | String "{" (String "}" rest) => arg +:+ rest
  | String c rest => String c (format1 rest arg)
  end.

(** [repr(s)] of a string, which is also [str(KeyError(s))]: quoted with
    ['], or with the double quote when [s] has a ['] and no double quote;
    the quote character and the backslash are escaped, tab, newline and
    return are written with their letter, and the other unprintable
    characters with two hexadecimal digits. *)
Definition double_quote : ascii := "034".

Definition printable (c : ascii) : bool :=
  let n := N_of_ascii c in
  (((32 <=? n) && (n <? 127)) || ((161 <=? n) && negb (n =? 173)))%N.

Definition hex_digit (n : N) : ascii :=
  ascii_of_N (if n <? 10 then 48 + n else 87 + n)%N.

Definition hex_escape (c : ascii) : string :=
  "\x" +:+ String (hex_digit (N_of_ascii c / 16)%N)
            (String (hex_digit (N_of_ascii c mod 16)%N) EmptyString).

Fixpoint repr_body (quote : ascii) (s : string) : string :=
  match s with
  | EmptyString => EmptyString
  | String c s' =>
      (if ascii_dec c quote then String "\" (String c EmptyString)
       else if ascii_dec c "\" then "\\"
       else if ascii_dec c "009" then "\t"
       else if ascii_dec c "010" then "\n"
       else if ascii_dec c "013" then "\r"
       else if printable c then String c EmptyString
       else hex_escape c)
      +:+ repr_body quote s'
  end.

Definition repr (s : string) : string :=
  let quote :=
    if contains "'" s && negb (contains (String double_quote EmptyString) s)
    then double_quote else "'"%char in
  String quote (repr_body quote s +:+ String quote EmptyString).

(** Truthiness of a string: [if s:] *)
Definition truthy (s : string) : bool :=
  match s with EmptyString => false | _ => true end.

(** Exception classes that can reach the scripts.  The first seven are
    the classes of [requests.exceptions], all subclasses of
    [RequestException].  [LocationParseError] is the error urllib3 raises
    on a host name with an empty or over-long label; [requests] lets it
    through unwrapped. *)
Inductive ExcClass : Type :=
| ConnectionError      (* DNS failure, connection refused *)
| ConnectTimeout
| ReadTimeout
| SSLError
| InvalidURL
| MissingSchema
| InvalidSchema
| OSError              (* socket.error, socket.gaierror, socket.timeout *)
| LocationParseError   (* urllib3.exceptions; a ValueError, no RequestException *)
| ValueError
| KeyError
| EOFError
| KeyboardInterrupt.

(** [isinstance(e, requests.exceptions.RequestException)] *)
Definition is_RequestException (c : ExcClass) : bool :=
  match c with
  | ConnectionError | ConnectTimeout | ReadTimeout | SSLError
  | InvalidURL | MissingSchema | InvalidSchema => true
  | _ => false
  end.

(** [isinstance(e, Exception)]: everything but [KeyboardInterrupt], which
    derives from [BaseException] only. *)
Definition is_Exception (c : ExcClass) : bool :=
  match c with KeyboardInterrupt => false | _ => true end.

(** A raised exception: its class and [str(e)]. *)
Record Exc : Type := mkExc { exc_class : ExcClass; exc_str : string }.

(** The outcome of a call: a value, or a raised exception. *)
Inductive Result (A : Type) : Type :=
| Ok (a : A)
| Raise (e : Exc).
Arguments Ok {A} a.
Arguments Raise {A} e.

Definition bind {A B} (r : Result A) (k : A -> Result B) : Result B :=
  match r with
  | Ok a => k a
  | Raise e => Raise e
  end.

(** [try: body  except: handler] with a bare except clause. *)
Definition try_except {A} (body : Result A) (handler : Exc -> Result A)
  : Result A :=
  match body with
  | Ok a => Ok a
  | Raise e => handler e
  end.

(** [try: body  except Cls as e: handler]: exceptions outside the class
    keep propagating. *)
Definition try_except_class {A} (is_cls : ExcClass -> bool)
    (body : Result A) (handler : Exc -> Result A) : Result A :=
  match body with
  | Ok a => Ok a
  | Raise e => if is_cls (exc_class e) then handler e else Raise e
  end.

Definition returns {A} (r : Result A) : Prop := exists a, r = Ok a.

(** [s.split(sep)] for a one-character separator: the pieces between the
    separators, at least one. *)
Fixpoint split_on (sep : ascii) (s : string) : list string :=
  match s with
  | EmptyString => [EmptyString]
  | String c s' =>
      if ascii_dec c sep then EmptyString :: split_on sep s'
      else
        match split_on sep s' with
        | [] => [String c EmptyString]
        | piece :: pieces => String c piece :: pieces
        end
  end.

(** [s[:n]] *)
Fixpoint slice_to (n : nat) (s : string) : string :=
  match n, s with
  | O, _ => EmptyString
  | S _, EmptyString => EmptyString
  | S n', String c s' => String c (slice_to n' s')
  end.

End Py.

Import Py.

Notation "'let!' x ':=' r 'in' k" := (Py.bind r (fun x => k))
  (at level 10, x name, r at level 100, k at level 200).

(** ** The HTTP layer *)

(** What the scripts read from a [requests.Response].  [json] is the
    result of [response.json()] for a body that is a JSON object, kept with
    the string fields the tools read, and [None] for a body on which the
    call raises.  Bodies that decode to another JSON value (null, a list,
    a number) are not covered. *)
Record Response : Type := mkResponse {
  status_code : Z;
  text : string;                       (* decoded body *)
  content : string;                    (* raw body bytes *)
  headers : list (string * string);
  json : option (gmap string string)   (* [response.json()]; None: it raises *)
}.

(** [requests.get(url, ...)] as seen from the scripts: a response or a
    raised exception. *)
Definition Http : Type := string -> Result Response.

(** ** The spec's vocabulary *)

Inductive Verdict : Type := Present | Absent | Indeterminate.

(** The network-level faults of the spec's error taxonomy. *)
Inductive Fault : Type :=
| DnsResolutionFailure
| ConnectionRefused
| ConnectionTimeout
| TransportError
| MalformedTarget.

(** The exception classes under which a fault comes out of a [requests]
    call.  A malformed target is reported as one of the three URL errors
    of [requests] when [requests] itself rejects it, and comes out as
    urllib3's [LocationParseError] when the host name only fails later,
    at connection time (a label that is empty or longer than 63
    characters). *)
Definition fault_classes (f : Fault) : list ExcClass :=
  match f with
  | DnsResolutionFailure => [ConnectionError]
  | ConnectionRefused => [ConnectionError]
  | ConnectionTimeout => [ConnectTimeout; ReadTimeout]
  | TransportError => [SSLError; ConnectionError]
  | MalformedTarget =>
      [InvalidURL; MissingSchema; InvalidSchema; LocationParseError]
  end.

(** "The marker appears in the body, case-insensitively": some stretch of
    the body is the marker up to the case of its letters. *)
Definition occurs_ignoring_case (marker body : string) : Prop :=
  exists pre mid post,
    body = pre +:+ mid +:+ post /\ lower mid = lower marker.

(** ** findingnemo.py *)

Module FindingNemo.

(** One entry of the platform table: the URL template and the optional
    list of absence markers (read with [.get("error", [])]). *)
Record PlatformData : Type := mkPlatform {
  url : string;
  error : option (list string)
}.

(** [load_platforms()]: the dict, in insertion order. *)
Definition load_platforms : list (string * PlatformData) :=
  [ ("Facebook", mkPlatform "https://www.facebook.com/{}"
                   (Some ["content-login-button"; "login_form"]));
    ("Instagram", mkPlatform "https://www.instagram.com/{}/"
                   (Some ["The link you followed may be broken"]));
    ("Twitter", mkPlatform "https://twitter.com/{}"
                   (Some ["This account doesn't exist"]));
    ("GitHub", mkPlatform "https://github.com/{}"
                   (Some ["This is not the web page you are looking for"]));
    ("YouTube", mkPlatform "https://www.youtube.com/@{}"
                   (Some ["This channel doesn't exist"]));
    ("Reddit", mkPlatform "https://www.reddit.com/user/{}"
                   (Some ["Sorry, nobody on Reddit goes by that name"]));
    ("Pinterest", mkPlatform "https://www.pinterest.com/{}/"
                   (Some ["Sorry, we couldn't find"]));
    ("TikTok", mkPlatform "https://www.tiktok.com/@{}"
                   (Some ["Couldn't find this account"]));
    ("LinkedIn", mkPlatform "https://www.linkedin.com/in/{}"
                   (Some ["This page doesn't exist"]));
    ("Twitch", mkPlatform "https://www.twitch.tv/{}"
                   (Some ["the page you are looking for is unavailable"]));
    ("Telegram", mkPlatform "https://t.me/{}"
                   (Some ["If you have Telegram, you can contact"]));
    ("VK", mkPlatform "https://vk.com/{}" (Some ["Error 404"]));
    ("Medium", mkPlatform "https://medium.com/@{}" (Some ["404"]));
    ("DevianArt", mkPlatform "https://{}.deviantart.com" (Some ["404"]));
    ("Spotify", mkPlatform "https://open.spotify.com/user/{}"
                   (Some ["Page not found"])) ].

(** [d[key]] on a dict kept as an association list. *)
Fixpoint getitem {V} (d : list (string * V)) (key : string) : Result V :=
  match d with
  | [] => Raise (mkExc KeyError (repr key))
  | (k, v) :: d' => if String.eqb k key then Ok v else getitem d' key
  end.

(** The [for error in error_indicators] loop of [check_platform], with its
    [break]: the value of [found] when the loop is left. *)
Fixpoint scan_indicators (error_indicators : list string) (body : string)
  : bool :=
  match error_indicators with
  | [] => true
  | error :: rest =>
      if contains (lower error) (lower body) then false
      else scan_indicators rest body
  end.

(** The tuple [platform, url, found, message]. *)
Definition PlatformResult : Type := (string * string * bool * string)%type.

Section WithPlatforms.

(** [self.platforms] and [self.session.get(url, timeout=10)]. *)
Variable platforms : list (string * PlatformData).
Variable session_get : Http.

(** [check_platform(self, platform, username)] *)
Definition check_platform (platform username : string)
  : Result PlatformResult :=
  let! platform_data := getitem platforms platform in
  let url := format1 (url platform_data) username in
  try_except_class is_RequestException
    (let! response := session_get url in
     if status_code response =? 200 then
       let error_indicators := default [] (error platform_data) in
       let found := scan_indicators error_indicators (text response) in
       Ok (platform, url, found, "Success")
     else
       Ok (platform, url, false,
           "Status: " +:+ pretty (status_code response)))
    (fun e => Ok (platform, url, false, "Error: " +:+ exc_str e)).

(** The [found] component of what a call to [check_platform] returned. *)
Definition found_flag (r : Result PlatformResult) : option bool :=
  match r with
  | Ok (_, _, found, _) => Some found
  | Raise _ => None
  end.

(** [run_search] and [print_result] branch on [if found:] alone. *)
Definition platform_verdict (found : bool) : Verdict :=
  if found then Present else Absent.

(** What [print_result] shows for one result (colours left out): the
    message is not displayed. *)
Inductive Shown : Type :=
| ShownFound (platform url : string)
| ShownNotFound (platform : string).

Definition print_result (platform url : string) (found : bool)
    (message : string) : Shown :=
  if found then ShownFound platform url else ShownNotFound platform.

(** The line printed for one result tuple. *)
Definition show (r : PlatformResult) : Shown :=
  let '(platform, url, found, message) := r in
  print_result platform url found message.

Definition shown_platform (s : Shown) : string :=
  match s with
  | ShownFound platform _ => platform
  | ShownNotFound platform => platform
  end.

(** A line of the form "[ FOUND ] platform". *)
Definition shown_found (s : Shown) : bool :=
  match s with
  | ShownFound _ _ => true
  | ShownNotFound _ => false
  end.

(** A finished future holds what the submitted call returned or raised;
    [future.result()] hands it back. *)
Definition Future : Type := Result PlatformResult.

(** The [for future in as_completed(...)] loop of [run_search], over the
    futures in completion order; the state is the output printed so far
    and [found_count]. *)
Fixpoint drain (completed : list Future) (out : list Shown)
    (found_count : nat) : Result (list Shown * nat) :=
  match completed with
  | [] => Ok (out, found_count)
  | future :: rest =>
      let! result := future in
      let '(platform, url, found, message) := result in
      drain rest (out ++ [print_result platform url found message])
            (if found then S found_count else found_count)
  end.

(** [run_search(self, username)].  [as_completed] is the completion
    order chosen by the pool: which of the ten workers ran which call
    and how long each call took only show in this order. *)
Definition run_search (as_completed : list Future -> list Future)
    (username : string) : Result (list Shown * nat) :=
  let futures :=
    map (fun platform => check_platform platform username)
        (map fst platforms) in
  drain (as_completed futures) [] 0%nat.

(** One read of [input(...)]: a line, or Ctrl-C at the prompt. *)
Inductive Input : Type :=
| Line (s : string)
| CtrlC.

Inductive Event : Type :=
| Search (username : string) (outcome : Result (list Shown * nat))
| Goodbye
| Cancelled.

(** [interactive_mode(self)]: the [while True] loop, run until it
    breaks or the given inputs are used up. *)
Fixpoint interactive_mode (as_completed : list Future -> list Future)
    (inputs : list Input) : list Event :=
  match inputs with
  | [] => []
  | CtrlC :: _ => [Cancelled]
  | Line l :: rest =>
      let username := strip l in
      if negb (truthy username) then interactive_mode as_completed rest
      else if bool_decide (lower username ∈ ["exit"; "quit"; "q"])
      then [Goodbye]
      else
        let outcome := run_search as_completed username in
        match outcome with
        | Ok _ => Search username outcome :: interactive_mode as_completed rest
        | Raise e =>
            if is_Exception (exc_class e)
            then Search username outcome :: interactive_mode as_completed rest
            else [Search username outcome; Cancelled]
        end
  end.

(** [main()]: with a command-line argument the search runs on it
    directly, otherwise the interactive loop starts. *)
Definition main (as_completed : list Future -> list Future)
    (argv : list string) (inputs : list Input) : list Event :=
  match argv with
  | _ :: username :: _ => [Search username (run_search as_completed username)]
  | _ => interactive_mode as_completed inputs
  end.

End WithPlatforms.

End FindingNemo.

(** ** The socket layer *)

(** [sock.connect_ex((host, port))] on a fresh TCP socket with a timeout
    set: the errno it returns (0 when the connection is established within
    the timeout), or an exception raised by the socket calls. *)
Definition Sock : Type := string -> Z -> Result Z.

(** The connection attempt to [host]:[port] completes within the timeout. *)
Definition connects (sock : Sock) (host : string) (port : Z) : bool :=
  match sock host port with
  | Ok result => result =? 0
  | Raise _ => false
  end.

(** ** server_recon.py *)

Module ServerRecon.

Definition HIDDEN_PATHS : list string :=
  [ "admin"; "dashboard"; "login"; "wp-admin"; "phpmyadmin";
    ".git"; ".env"; "backup"; "api"; "config"; "uploads";
    "administrator"; "mysql"; "test"; "hidden"; "cgi-bin";
    "phpinfo.php"; "robots.txt"; ".htaccess"; "backup.zip";
    "wp-login.php"; "administrator/index.php"; "server-status" ].

Definition COMMON_PORTS : list Z :=
  [21; 22; 23; 25; 53; 80; 110; 443; 993; 995; 1723; 3306; 3389; 5900;
   8080; 8443].

(** [validate_url(url)]; the warning it prints is not modelled. *)
Definition validate_url (url : string) : string :=
  if negb (startswith_any ["http://"; "https://"] url)
  then "http://" +:+ url
  else url.

(** What [get_target] did before it returned, raised or ran out of
    input. *)
Inductive TargetEvent : Type :=
| Requested (url : string)        (* requests.get(validated_target) *)
| InvalidTarget.                  (* "Please enter a valid target." *)

Inductive TargetOutcome : Type :=
| Target (validated_target : string)
| Failed (e : Exc)
| AwaitingInput.

(** [get_target()]: the [while True] loop over the lines typed at its two
    prompts. *)
Fixpoint get_target (requests_get : Http) (inputs : list string)
  : list TargetEvent * TargetOutcome :=
  match inputs with
  | [] => ([], AwaitingInput)
  | line :: rest =>
      let target := strip line in
      if truthy target then
        let validated_target := validate_url target in
        match requests_get validated_target with
        | Ok response => ([Requested validated_target], Target validated_target)
        | Raise e =>
            if is_RequestException (exc_class e) then
              match rest with
              | [] => ([Requested validated_target], AwaitingInput)
              | choice :: rest' =>
                  if String.eqb (lower choice) "y"
                  then ([Requested validated_target], Target validated_target)
                  else
                    let '(evs, out) := get_target requests_get rest' in
                    (Requested validated_target :: evs, out)
              end
            else ([Requested validated_target], Failed e)
        end
      else
        let '(evs, out) := get_target requests_get rest in
        (InvalidTarget :: evs, out)
  end.

(** [scan_port(hostname, port)] *)
Definition scan_port (sock : Sock) (hostname : string) (port : Z)
  : Result (Z * bool) :=
  try_except
    (let! result := sock hostname port in
     Ok (port, result =? 0))
    (fun _ => Ok (port, false)).

(** The [for future in futures] loop of [port_scan]; the first component
    records the pair read from each future, the second is [open_ports]. *)
Fixpoint collect_ports (futures : list (Result (Z * bool)))
    (seen : list (Z * bool)) (open_ports : list Z)
  : Result (list (Z * bool) * list Z) :=
  match futures with
  | [] => Ok (seen, open_ports)
  | future :: rest =>
      let! result := future in
      let '(port, is_open) := result in
      collect_ports rest (seen ++ [(port, is_open)])
        (if is_open then open_ports ++ [port] else open_ports)
  end.

(** [port_scan] branches on [if is_open:]. *)
Definition port_verdict (is_open : bool) : Verdict :=
  if is_open then Present else Absent.

(** The body of [port_scan] over a port list. *)
Definition scan_ports (sock : Sock) (hostname : string) (ports : list Z)
  : Result (list (Z * bool) * list Z) :=
  let futures := map (scan_port sock hostname) ports in
  collect_ports futures [] [].

(** [port_scan(hostname)] *)
Definition port_scan (sock : Sock) (hostname : string)
  : Result (list (Z * bool) * list Z) :=
  scan_ports sock hostname COMMON_PORTS.

Section WithUrljoin.

(** [urllib.parse.urljoin]; [main] has already parsed the target with
    [urlparse] when the scans start, so the join does not raise. *)
Variable urljoin : string -> string -> string.
Variable requests_get : Http.

(** The tuple [test_url, status_code, len(content)]. *)
Definition PathHit : Type := (string * Z * nat)%type.

(** [check_hidden_path(url, path)] *)
Definition check_hidden_path (url path : string)
  : Result (option PathHit) :=
  let test_url := urljoin url path in
  try_except
    (let! response := requests_get test_url in
     if bool_decide (status_code response ∈ [200; 301; 302; 403])
     then Ok (Some (test_url, status_code response,
                    String.length (content response)))
     else Ok None)
    (fun _ => Ok None).

(** The [for future in futures] loop of [find_hidden_paths]; the first
    component records the value read from each future, the second is
    [found_paths]. *)
Fixpoint collect_paths (futures : list (Result (option PathHit)))
    (seen : list (option PathHit)) (found_paths : list string)
  : Result (list (option PathHit) * list string) :=
  match futures with
  | [] => Ok (seen, found_paths)
  | future :: rest =>
      let! result := future in
      collect_paths rest (seen ++ [result])
        (match result with
         | Some (test_url, _, _) => found_paths ++ [test_url]
         | None => found_paths
         end)
  end.

(** The request for [target] returns a response whose status is one of
    [allowed]. *)
Definition answers_with (allowed : list Z) (target : string) : bool :=
  match requests_get target with
  | Ok response => bool_decide (status_code response ∈ allowed)
  | Raise _ => false
  end.

(** [find_hidden_paths] branches on [if result:]; a tuple is truthy. *)
Definition path_verdict (result : option PathHit) : Verdict :=
  match result with Some _ => Present | None => Absent end.

(** The body of [find_hidden_paths] over a path list. *)
Definition probe_paths (url : string) (paths : list string)
  : Result (list (option PathHit) * list string) :=
  let futures := map (check_hidden_path url) paths in
  collect_paths futures [] [].

(** [find_hidden_paths(url)] *)
Definition find_hidden_paths (url : string)
  : Result (list (option PathHit) * list string) :=
  probe_paths url HIDDEN_PATHS.

(** What the [print_*] helpers write, one constructor per helper (colours
    left out); [print] is the builtin. *)
Inductive Printed : Type :=
| print_header (title : string)
| print_success (message : string)
| print_warning (message : string)
| print_error (message : string)
| print_info (message : string)
| print (text : string).

(** The [for line in lines] loop of [check_robots_txt]. *)
Fixpoint robots_rules (lines : list string) : list Printed :=
  match lines with
  | [] => []
  | line :: rest =>
      let line := strip line in
      if truthy line && negb (startswith "#" line)
         && (contains "Disallow:" line || contains "Allow:" line)
      then print ("  " +:+ line) :: robots_rules rest
      else robots_rules rest
  end.

(** [check_robots_txt(url)]: what it prints. *)
Definition check_robots_txt (url : string) : Result (list Printed) :=
  let robots_url := urljoin url "/robots.txt" in
  let! out :=
    try_except
      (let! response := requests_get robots_url in
       if status_code response =? 200 then
         let lines := split_on "010" (text response) in
         Ok (print_success "robots.txt found!" :: robots_rules lines)
       else Ok [print_info "No robots.txt found or not accessible"])
      (fun _ => Ok [print_info "Failed to fetch robots.txt"]) in
  Ok (print_header "ROBOTS.TXT ANALYSIS" :: out).

End WithUrljoin.

End ServerRecon.

(** ** info.py *)

Module Info.

(** The decoded JSON object of the geolocation service. *)
Abbreviation GeoData := (gmap string string).

(** The geolocation service as the tool sees it: the answer to the
    [n]-th outbound call ([n] counts all calls made so far) for a URL. *)
Definition GeoApi : Type := nat -> string -> Result Response.

(** [self.geo_cache], with a counter of the outbound calls made. *)
Record GeoState : Type := mkGeo {
  geo_cache : gmap string GeoData;
  outbound : nat
}.

Definition called (st : GeoState) : GeoState :=
  mkGeo (geo_cache st) (S (outbound st)).

(** The [try] block of [get_geolocation]: the request, the status test
    and [response.json()]. *)
Definition fetch (api : GeoApi) (n : nat) (ip : string) : Result (option GeoData) :=
  let! response := api n ("http://ip-api.com/json/" +:+ ip) in
  if status_code response =? 200 then
    match json response with
    | Some data => Ok (Some data)
    | None => Raise (mkExc ValueError "Expecting value")
    end
  else Ok None.

(** [get_geolocation(self, ip)], run without interruption. *)
Definition get_geolocation (api : GeoApi) (st : GeoState) (ip : string)
  : option GeoData * GeoState :=
  match geo_cache st !! ip with
  | Some data => (Some data, st)
  | None =>
      match fetch api (outbound st) ip with
      | Ok (Some data) =>
          (Some data, mkGeo (<[ip := data]> (geo_cache st)) (S (outbound st)))
      | Ok None => (None, called st)
      | Raise _ => (None, called st)
      end
  end.

(** Lookups made one after the other, as the monitoring loop makes
    them. *)
Fixpoint lookups (api : GeoApi) (st : GeoState) (ips : list string)
  : list (option GeoData) * GeoState :=
  match ips with
  | [] => ([], st)
  | ip :: rest =>
      let '(r, st1) := get_geolocation api st ip in
      let '(rs, st2) := lookups api st1 rest in
      (r :: rs, st2)
  end.

(** The same method run by several workers at once.  A worker is at one
    of four points: before the membership test, before the request,
    holding the decoded data before the store, or returned. *)
Inductive Pc : Type :=
| AtCheck
| AtRequest
| AtStore (data : GeoData)
| Returned (r : option GeoData).

Record Worker : Type := mkWorker { w_ip : string; w_pc : Pc }.

(** One atomic step of one worker on the shared cache. *)
Definition step (api : GeoApi) (st : GeoState) (w : Worker)
  : GeoState * Worker :=
  match w_pc w with
  | AtCheck =>
      match geo_cache st !! w_ip w with
      | Some data => (st, mkWorker (w_ip w) (Returned (Some data)))
      | None => (st, mkWorker (w_ip w) AtRequest)
      end
  | AtRequest =>
      match fetch api (outbound st) (w_ip w) with
      | Ok (Some data) => (called st, mkWorker (w_ip w) (AtStore data))
      | Ok None => (called st, mkWorker (w_ip w) (Returned None))
      | Raise _ => (called st, mkWorker (w_ip w) (Returned None))
      end
  | AtStore data =>
      (mkGeo (<[w_ip w := data]> (geo_cache st)) (outbound st),
       mkWorker (w_ip w) (Returned (Some data)))
  | Returned r => (st, w)
  end.

(** 1 while the worker has not made its outbound call and may still make
    it, 0 afterwards. *)
Definition may_call (w : Worker) : nat :=
  match w_pc w with
  | AtCheck | AtRequest => 1
  | AtStore _ | Returned _ => 0
  end.

(** A schedule names the worker that takes each next step. *)
Fixpoint run (api : GeoApi) (schedule : list nat) (st : GeoState)
    (workers : list Worker) : GeoState * list Worker :=
  match schedule with
  | [] => (st, workers)
  | i :: rest =>
      match workers !! i with
      | Some w =>
          let '(st', w') := step api st w in
          run api rest st' (<[i := w']> workers)
      | None => run api rest st workers
      end
  end.

(** [port_scan(self, ip, ports)]: the [for port in ports] loop. *)
Fixpoint port_scan_from (sock : Sock) (ip : string) (ports : list Z)
    (open_ports : list Z) : Result (list Z) :=
  match ports with
  | [] => Ok open_ports
  | port :: rest =>
      let! open_ports' :=
        try_except
          (let! result := sock ip port in
           if result =? 0 then Ok (open_ports ++ [port]) else Ok open_ports)
          (fun _ => Ok open_ports) in
      port_scan_from sock ip rest open_ports'
  end.

Definition port_scan (sock : Sock) (ip : string) (ports : list Z)
  : Result (list Z) :=
  port_scan_from sock ip ports [].

(** The default value of [ports]. *)
Definition default_ports : list Z :=
  [80; 443; 22; 21; 25; 53; 110; 143; 993; 995].

(** [response.headers.get(key, default)]: header names compare without
    regard to case. *)
Fixpoint headers_get (hs : list (string * string)) (key default : string)
  : string :=
  match hs with
  | [] => default
  | (k, v) :: hs' =>
      if String.eqb (lower k) (lower key) then v
      else headers_get hs' key default
  end.

Inductive Via : Type := via_http | via_https.

(** The dict returned by [get_http_headers]. *)
Record HttpInfo : Type := mkHttpInfo {
  info_status_code : Z;
  info_headers : list (string * string);
  info_server : string;
  info_via : Via
}.

Definition http_info_of (response : Response) (via : Via) : HttpInfo :=
  mkHttpInfo (status_code response) (headers response)
             (headers_get (headers response) "Server" "Unknown") via.

(** [get_http_headers(self, ip)] *)
Definition get_http_headers (requests_get : Http) (ip : string)
  : Result (option HttpInfo) :=
  try_except
    (let! response := requests_get ("http://" +:+ ip) in
     Ok (Some (http_info_of response via_http)))
    (fun _ =>
       try_except
         (let! response := requests_get ("https://" +:+ ip) in
          Ok (Some (http_info_of response via_https)))
         (fun _ => Ok None)).

(** [format_http_info] tells the two outcomes apart by [if not http_info]. *)
Definition http_accessible (http_info : option HttpInfo) : bool :=
  match http_info with Some _ => true | None => false end.

Definition header_verdict (http_info : option HttpInfo) : Verdict :=
  if http_accessible http_info then Present else Indeterminate.

(** What [main] does with the line typed at the "Hostname: " prompt (the
    interval prompt that follows does not touch the hostname). *)
Inductive MainStep : Type :=
| PrintedDefaultNotice        (* "No hostname provided. Using ..." *)
| ContinuousMonitoring (hostname : string).

Definition main (hostname_line : string) : list MainStep :=
  let hostname := strip hostname_line in
  if negb (truthy hostname)
  then [PrintedDefaultNotice; ContinuousMonitoring "google.com"]
  else [ContinuousMonitoring hostname].

(** *** Banners *)

(** One exchange on a fresh TCP connection to the address and port: connect,
    send the given bytes if any, receive up to 1024 bytes and decode them
    (undecodable bytes dropped); or an exception from any of these. *)
Definition Exchange : Type := string -> Z -> option string -> Result string.

Definition CRLF : string := String "013" (String "010" EmptyString).

(** What [get_service_info] sends before it reads the banner. *)
Definition greeting (port : Z) : option string :=
  if bool_decide (port ∈ [80; 443])
  then Some ("HEAD / HTTP/1.0" +:+ CRLF +:+ CRLF)
  else if port =? 22 then Some ("SSH-2.0-Client" +:+ CRLF)
  else None.

(** [get_service_info(self, ip, port)] *)
Definition get_service_info (exchange : Exchange) (ip : string) (port : Z)
  : Result (option string) :=
  try_except
    (let! banner := exchange ip port (greeting port) in
     Ok (Some (slice_to 200 (strip banner))))
    (fun _ => Ok None).

(** *** Resolution *)

(** The outcome of a resolver call: a value, [socket.gaierror] with its
    text, or another exception. *)
Inductive Dns (A : Type) : Type :=
| DnsOk (a : A)
| DnsGaierror (text : string)
| DnsRaise (e : Exc).
Arguments DnsOk {A} a.
Arguments DnsGaierror {A} text.
Arguments DnsRaise {A} e.

(** Everything outside the process that one scan talks to. *)
Record World : Type := mkWorld {
  (* [socket.getaddrinfo(hostname, None)]: per entry, canonname and
     [sockaddr[0]] *)
  getaddrinfo : string -> Dns (list (string * string));
  gethostbyname : string -> Dns string;
  (* return code of the ping command, or an exception (timeout) *)
  ping : string -> Result Z;
  (* [socket.gethostbyaddr(ip)[0]] *)
  gethostbyaddr : string -> Result string;
  geo_api : GeoApi;
  connect_ex : Sock;
  requests_get : Http;
  (* [datetime.now().isoformat()] *)
  now : string
}.

(** The dict returned by [resolve_hostname]: the four entries of a
    resolution, or the single entry ['error']. *)
Inductive Resolution : Type :=
| Resolved (primary_ip : string) (all_ips : list string) (hostname : string)
           (canonical_name : option string)
| ResolutionError (error : string).

(** The [for ... in addr_info] loop of [resolve_hostname]: the set [ips]
    and the loop variable [canonname] ([None] while it is unbound). *)
Fixpoint collect_ips (addr_info : list (string * string))
    (ips : gset string) (canonname : option string)
  : gset string * option string :=
  match addr_info with
  | [] => (ips, canonname)
  | (name, ip) :: rest => collect_ips rest ({[ip]} ∪ ips) (Some name)
  end.

Section WithInterpreter.

(** [str(e)] of the error Python raises when a local variable is read before
    it was assigned; the wording depends on the interpreter version. *)
Variable unbound_local_message : string.

(** The two [except] clauses of [resolve_hostname] applied to a resolver
    outcome. *)
Definition resolving {A} (r : Dns A) (k : A -> Result Resolution)
  : Result Resolution :=
  match r with
  | DnsOk a => k a
  | DnsGaierror text => Ok (ResolutionError ("DNS resolution failed: " +:+ text))
  | DnsRaise e =>
      if is_Exception (exc_class e)
      then Ok (ResolutionError ("Resolution error: " +:+ exc_str e))
      else Raise e
  end.

(** [resolve_hostname(self, hostname)].  [list(ips)] lists the set in an
    order Python does not fix; [elements] stands for it. *)
Definition resolve_hostname (w : World) (hostname : string)
  : Result Resolution :=
  resolving (getaddrinfo w hostname) (fun addr_info =>
    let '(ips, canonname) := collect_ips addr_info ∅ None in
    resolving (gethostbyname w hostname) (fun primary_ip =>
      match canonname with
      | Some canonname =>
          Ok (Resolved primary_ip (elements ips) hostname
                (if String.eqb canonname hostname then None else Some canonname))
      | None =>
          Ok (ResolutionError ("Resolution error: " +:+ unbound_local_message))
      end)).

(** [ping_server(self, ip)] *)
Definition ping_server (w : World) (ip : string) : Result bool :=
  try_except
    (let! returncode := ping w ip in Ok (returncode =? 0))
    (fun _ => Ok false).

(** [get_reverse_dns(self, ip)] *)
Definition get_reverse_dns (w : World) (ip : string) : Result (option string) :=
  try_except
    (let! hostname := gethostbyaddr w ip in Ok (Some hostname))
    (fun _ => Ok None).

(** The dict returned by [gather_comprehensive_info]. *)
Record Report : Type := mkReport {
  report_ip : string;
  report_all_ips : list string;
  report_geolocation : option GeoData;
  report_open_ports : list Z;
  report_http_info : option HttpInfo;
  report_responsive : bool;
  report_reverse_dns : option string;
  report_timestamp : string
}.

(** [gather_comprehensive_info(self, hostname)]: the value returned and the
    cache afterwards.  What it prints on the way is not modelled: the
    [format_*] calls only build text from values already obtained, and on
    geolocation data of the shape modelled here (an object with string
    fields) they do not raise. *)
Definition gather_comprehensive_info (w : World) (st : GeoState)
    (hostname : string) : Result (option Report * GeoState) :=
  let! resolution := resolve_hostname w hostname in
  match resolution with
  | ResolutionError _ => Ok (None, st)
  | Resolved primary_ip all_ips _ _ =>
      let! is_alive := ping_server w primary_ip in
      let! reverse_dns := get_reverse_dns w primary_ip in
      let '(geo_data, st1) := get_geolocation (geo_api w) st primary_ip in
      let! open_ports := port_scan (connect_ex w) primary_ip default_ports in
      let! http_info := get_http_headers (requests_get w) primary_ip in
      Ok (Some (mkReport primary_ip all_ips geo_data open_ports http_info
                  is_alive reverse_dns (now w)),
          st1)
  end.

(** *** The monitoring loop *)

(** The attributes of a [ServerInfoGatherer]. *)
Record Tool : Type := mkTool {
  running : bool;
  scan_count : nat;
  scanned_servers : gset string;
  geo : GeoState
}.

(** [__init__] *)
Definition init : Tool := mkTool false 0 ∅ (mkGeo ∅ 0).

(** The three values [print_status] shows. *)
Record Status : Type := mkStatus {
  status_running : bool;
  status_scanned : nat;
  status_unique : nat
}.

Definition print_status (tool : Tool) : Status :=
  mkStatus (running tool) (scan_count tool) (size (scanned_servers tool)).

(** The bookkeeping of one pass of the [while self.running] loop, after
    [gather_comprehensive_info] has returned: the tool afterwards and the
    status printed, if any. *)
Definition record_scan (tool : Tool) (current_data : option Report)
    (st : GeoState) : Tool * list Status :=
  let servers :=
    match current_data with
    | Some data =>
        if bool_decide (report_ip data ∈ scanned_servers tool)
        then scanned_servers tool
        else {[report_ip data]} ∪ scanned_servers tool
    | None => scanned_servers tool
    end in
  let tool' := mkTool (running tool) (S (scan_count tool)) servers st in
  (tool', if (scan_count tool' mod 3 =? 0)%nat then [print_status tool'] else []).

(** The passes of the [while self.running] loop of [continuous_monitoring]
    that run to their end, one per element of [worlds] (the world as it is
    during that pass); it stops early when a pass raises.  Where the
    interrupt arrives is not part of this function but of
    [continuous_monitoring] below. *)
Fixpoint monitoring_loop (worlds : list World) (hostname : string)
    (tool : Tool) : Tool * list Status * option Exc :=
  match worlds with
  | [] => (tool, [], None)
  | w :: rest =>
      match gather_comprehensive_info w (geo tool) hostname with
      | Raise e => (tool, [], Some e)
      | Ok (current_data, st) =>
          let '(tool', shown) := record_scan tool current_data st in
          let '(final, later, e) := monitoring_loop rest hostname tool' in
          (final, shown ++ later, e)
      end
  end.

(** The figures and the server lines of [print_final_summary]. *)
Record Summary : Type := mkSummary {
  total_scans : nat;
  unique_servers : nat;
  geolocation_queries : nat;
  monitored : list (string * string)
}.

Definition print_final_summary (tool : Tool) : Summary :=
  mkSummary (scan_count tool) (size (scanned_servers tool))
    (size (geo_cache (geo tool)))
    (map (fun server =>
            let geo := default ∅ (geo_cache (geo tool) !! server) in
            (server, default "Unknown" (geo !! "country")))
         (elements (scanned_servers tool))).

(** [stop(self)] *)
Definition stop (tool : Tool) : Tool * Summary :=
  let tool' := mkTool false (scan_count tool) (scanned_servers tool) (geo tool) in
  (tool', print_final_summary tool').

(** The points of a pass between which the attributes of the tool change:
    up to the store into [geo_cache] inside [get_geolocation]; from there
    to the update of [scanned_servers]; from there to the increment of
    [scan_count]; and after it. *)
Inductive Moment : Type :=
| BeforeLookup
| AfterLookup
| AfterServerAdded
| AfterCount.

(** The attributes at a moment of a pass in which
    [gather_comprehensive_info] returns [current_data] and leaves the
    cache [st]. *)
Definition tool_at (m : Moment) (tool : Tool) (current_data : option Report)
    (st : GeoState) : Tool :=
  match m with
  | BeforeLookup => tool
  | AfterLookup =>
      mkTool (running tool) (scan_count tool) (scanned_servers tool) st
  | AfterServerAdded =>
      mkTool (running tool) (scan_count tool)
        (scanned_servers (record_scan tool current_data st).1) st
  | AfterCount => (record_scan tool current_data st).1
  end.

(** [continuous_monitoring(self, hostname, interval)] up to the interrupt.
    The passes of [worlds] run to their end.  The interrupt then arrives
    during the sleep ([last = None]) or at a moment of one more pass
    ([last = Some (w, m)]); either way [stop()] runs on the attributes as
    they are at that instant, from the [except KeyboardInterrupt] clause or
    from the signal handler installed by [main]. *)
Definition continuous_monitoring (worlds : list World)
    (last : option (World * Moment)) (hostname : string) (tool : Tool)
  : Result (Tool * list Status * Summary) :=
  let tool := mkTool true (scan_count tool) (scanned_servers tool) (geo tool) in
  let '(tool, shown, e) := monitoring_loop worlds hostname tool in
  let stopped (t : Tool) : Result (Tool * list Status * Summary) :=
    let '(t', summary) := stop t in Ok (t', shown, summary) in
  let raised (e : Exc) : Result (Tool * list Status * Summary) :=
    match exc_class e with
    | KeyboardInterrupt => stopped tool
    | _ => Raise e
    end in
  match e with
  | Some e => raised e
  | None =>
      match last with
      | None => stopped tool
      | Some (w, m) =>
          match gather_comprehensive_info w (geo tool) hostname with
          | Ok (current_data, st) => stopped (tool_at m tool current_data st)
          | Raise e => raised e
          end
      end
  end.

End WithInterpreter.

End Info.

(** * Properties *)

Section StringFacts.

Lemma startswith_app (p s : string) : startswith p (p +:+ s) = true.
Proof.
  induction p as [|a p IH]; simpl; [reflexivity|].
  destruct (ascii_dec a a); [exact IH | congruence].
Qed.

Lemma startswith_inv (p s : string) :
  startswith p s = true -> exists t, s = p +:+ t.
Proof.
  revert s; induction p as [|a p IH]; intros s H; simpl in *.
  - exists s; reflexivity.
  - destruct s as [|b s]; [discriminate|].
    destruct (ascii_dec a b) as [->|]; [|discriminate].
    destruct (IH _ H) as [t ->]. exists t; reflexivity.
Qed.

Lemma length_append (s t : string) :
  String.length (s +:+ t) = (String.length s + String.length t)%nat.
Proof. induction s; simpl; [reflexivity | now rewrite IHs]. Qed.

Lemma lower_append (s t : string) : lower (s +:+ t) = lower s +:+ lower t.
Proof. induction s as [|c s IH]; simpl; [reflexivity | now rewrite IH]. Qed.

(** A split of a lowered string comes from a split of the string. *)
Lemma lower_split (s a b : string) :
  lower s = a +:+ b ->
  exists s1 s2, s = s1 +:+ s2 /\ lower s1 = a /\ lower s2 = b.
Proof.
  revert s; induction a as [|c a IH]; intros s H.
  - exists EmptyString, s. auto.
  - destruct s as [|d s]; simpl in H; [discriminate|].
    injection H as Hc Hs. destruct (IH _ Hs) as (s1 & s2 & -> & H1 & H2).
    exists (String d s1), s2. simpl. rewrite Hc, H1. auto.
Qed.

Lemma contains_startswith (sub s : string) :
  startswith sub s = true -> contains sub s = true.
Proof. intros H. destruct s; simpl; now rewrite H. Qed.

Lemma contains_iff (sub s : string) :
  contains sub s = true <-> exists pre post, s = pre +:+ sub +:+ post.
Proof.
  split.
  - induction s as [|c s IH]; simpl; rewrite orb_true_iff; intros [H|H].
    + apply startswith_inv in H as [t ->]. now exists EmptyString, t.
    + discriminate.
    + apply startswith_inv in H as [t ->]. now exists EmptyString, t.
    + destruct (IH H) as (pre & post & ->). now exists (String c pre), post.
  - intros (pre & post & ->). induction pre as [|c pre IH].
    + change (EmptyString +:+ sub +:+ post) with (sub +:+ post).
      rewrite contains_startswith; [reflexivity | apply startswith_app].
    + change (contains sub (String c (pre +:+ sub +:+ post)) = true).
      cbn [contains]. rewrite IH. apply orb_true_r.
Qed.

(** The test [error.lower() in response.text.lower()] decides occurrence up
    to case. *)
Lemma contains_lower_iff (marker body : string) :
  contains (lower marker) (lower body) = true <->
  occurs_ignoring_case marker body.
Proof.
  rewrite contains_iff. unfold occurs_ignoring_case. split.
  - intros (pre' & post' & H).
    apply lower_split in H as (pre & rest & -> & Hpre & H).
    apply lower_split in H as (mid & post & -> & Hmid & Hpost).
    now exists pre, mid, post.
  - intros (pre & mid & post & -> & H).
    exists (lower pre), (lower post). now rewrite !lower_append, H.
Qed.

End StringFacts.

Module ServerReconFacts.
Import ServerRecon.

Lemma validate_url_scheme (url : string) :
  startswith_any ["http://"; "https://"] (validate_url url) = true.
Proof.
  unfold validate_url.
  destruct (startswith_any _ url) eqn:E; simpl negb; cbv iota.
  - exact E.
  - unfold startswith_any; cbn [existsb].
    rewrite (startswith_app "http://" url). reflexivity.
Qed.

(** C9: [validate_url] returns its argument unchanged exactly when the
    argument already starts with "http://" or "https://", returns
    "http://" prepended to it otherwise, and is idempotent. *)
Theorem validate_url_spec (url : string) :
  (validate_url url = url <->
     startswith "http://" url = true \/ startswith "https://" url = true)
  /\ (startswith "http://" url = false /\ startswith "https://" url = false ->
        validate_url url = "http://" +:+ url)
  /\ validate_url (validate_url url) = validate_url url.
Proof.
  split; [|split].
  - unfold validate_url, startswith_any; cbn [existsb].
    rewrite orb_false_r. split.
    + destruct (startswith "http://" url) eqn:E1; [now left|].
      destruct (startswith "https://" url) eqn:E2; [now right|].
      cbn [orb negb]. intros H.
      apply (f_equal String.length) in H. rewrite length_append in H.
      cbn in H. lia.
    + intros [-> | ->]; [reflexivity|]. now rewrite orb_true_r.
  - intros [E1 E2]. unfold validate_url, startswith_any; cbn [existsb].
    now rewrite E1, E2.
  - pose proof (validate_url_scheme url) as H.
    unfold validate_url at 1. now rewrite H.
Qed.

(** *** Port probes *)

Lemma scan_port_eq (sock : Sock) (hostname : string) (port : Z) :
  scan_port sock hostname port = Ok (port, connects sock hostname port).
Proof.
  unfold scan_port, connects. now destruct (sock hostname port).
Qed.

Lemma collect_ports_ok (results : list (Z * bool)) (seen : list (Z * bool))
    (open_ports : list Z) :
  collect_ports (map Ok results) seen open_ports =
  Ok (seen ++ results,
      open_ports ++ map fst (filter (fun r => snd r = true) results)).
Proof.
  revert seen open_ports.
  induction results as [|[port is_open] results IH]; intros seen open_ports.
  - cbn. now rewrite !app_nil_r.
  - cbn [map collect_ports bind]. rewrite IH. rewrite <- app_assoc.
    destruct is_open.
    + rewrite filter_cons_True by reflexivity. cbn [map fst].
      now rewrite <- app_assoc.
    + now rewrite filter_cons_False by discriminate.
Qed.

Lemma scan_ports_eq (sock : Sock) (hostname : string) (ports : list Z) :
  let is_open := connects sock hostname in
  scan_ports sock hostname ports =
  Ok (map (fun port => (port, is_open port)) ports,
      filter (fun port => is_open port = true) ports).
Proof.
  intros is_open. unfold scan_ports.
  rewrite (map_ext _ (fun port => Ok (port, is_open port)))
    by (intros; apply scan_port_eq).
  rewrite <- (map_map (fun port => (port, is_open port)) Ok).
  rewrite collect_ports_ok. cbn [app]. f_equal. f_equal.
  induction ports as [|port ports IH]; [reflexivity|].
  cbn [map]. destruct (is_open port) eqn:E.
  - rewrite !filter_cons_True by (cbn; first [exact E | reflexivity]).
    cbn. now rewrite IH.
  - rewrite !filter_cons_False by (cbn; congruence). exact IH.
Qed.

(** *** Path probes *)

Section Paths.

Variable urljoin : string -> string -> string.
Variable requests_get : Http.

(** What [check_hidden_path] hands back, by the outcome of the request. *)
Lemma check_hidden_path_eq (url path : string) :
  check_hidden_path urljoin requests_get url path =
  Ok (match requests_get (urljoin url path) with
      | Ok response =>
          if bool_decide (status_code response ∈ [200; 301; 302; 403])
          then Some (urljoin url path, status_code response,
                     String.length (content response))
          else None
      | Raise _ => None
      end).
Proof.
  unfold check_hidden_path.
  destruct (requests_get (urljoin url path)) as [response|e]; cbn; [|reflexivity].
  now destruct (bool_decide _).
Qed.

Lemma collect_paths_ok (results : list (option PathHit))
    (seen : list (option PathHit)) (found_paths : list string) :
  collect_paths (map Ok results) seen found_paths =
  Ok (seen ++ results,
      found_paths ++ omap (fun r => (fun hit : PathHit => hit.1.1) <$> r) results).
Proof.
  revert seen found_paths.
  induction results as [|r results IH]; intros seen found_paths.
  - cbn. now rewrite !app_nil_r.
  - cbn [map collect_paths bind]. rewrite IH, <- app_assoc. cbn [app].
    destruct r as [[[test_url status] size]|]; cbn; [|reflexivity].
    now rewrite <- app_assoc.
Qed.

Lemma probe_paths_eq (url : string) (paths : list string) :
  exists results,
    map (check_hidden_path urljoin requests_get url) paths = map Ok results /\
    probe_paths urljoin requests_get url paths =
    Ok (results, omap (fun r => (fun hit : PathHit => hit.1.1) <$> r) results).
Proof.
  assert (H : exists results,
    map (check_hidden_path urljoin requests_get url) paths = map Ok results).
  { induction paths as [|path paths [results IH]]; [now exists []|].
    cbn [map]. rewrite IH, check_hidden_path_eq.
    eexists (_ :: results). reflexivity. }
  destruct H as [results H]. exists results. split; [exact H|].
  unfold probe_paths. rewrite H. apply collect_paths_ok.
Qed.

End Paths.

(** C4: a path probe is Present exactly when the request returned a
    response whose status is 200, 301, 302 or 403; every other status and
    every raised exception, timeouts included, make it Absent. *)
Theorem check_hidden_path_classification
    (urljoin : string -> string -> string) (requests_get : Http)
    (url path : string) :
  exists result,
    check_hidden_path urljoin requests_get url path = Ok result
    /\ (path_verdict result = Present <->
          exists response,
            requests_get (urljoin url path) = Ok response /\
            status_code response ∈ [200; 301; 302; 403])
    /\ (path_verdict result = Absent <->
          (exists response,
             requests_get (urljoin url path) = Ok response /\
             status_code response ∉ [200; 301; 302; 403])
          \/ (exists e, requests_get (urljoin url path) = Raise e)).
Proof.
  rewrite check_hidden_path_eq. eexists. split; [reflexivity|].
  destruct (requests_get (urljoin url path)) as [response|e].
  - destruct (bool_decide _) eqn:E; cbn [path_verdict].
    + apply bool_decide_eq_true in E. split; split; try discriminate.
      * intros _. now exists response.
      * reflexivity.
      * intros [(r & [= <-] & Hr) | (e & He)]; [contradiction | discriminate].
    + apply bool_decide_eq_false in E. split; split; try discriminate.
      * intros (r & [= <-] & Hr). contradiction.
      * intros _. left. now exists response.
      * reflexivity.
  - cbn [path_verdict]. split; split; try discriminate.
    + intros (r & Hr & _). discriminate.
    + intros _. right. now exists e.
    + reflexivity.
Qed.

End ServerReconFacts.

Module FindingNemoFacts.
Import FindingNemo.

Lemma scan_indicators_true (indicators : list string) (body : string) :
  scan_indicators indicators body = true <->
  forall m, In m indicators -> ~ occurs_ignoring_case m body.
Proof.
  induction indicators as [|error rest IH]; simpl.
  - split; [intros _ m [] | reflexivity].
  - destruct (contains (lower error) (lower body)) eqn:E.
    + split; [discriminate|]. intros H. exfalso.
      apply (H error); [now left | now apply contains_lower_iff].
    + rewrite IH. split.
      * intros H m [<-|Hm]; [|now apply H].
        rewrite <- contains_lower_iff, E. discriminate.
      * intros H m Hm. apply H. now right.
Qed.

Lemma scan_indicators_false (indicators : list string) (body : string) :
  scan_indicators indicators body = false <->
  exists m, In m indicators /\ occurs_ignoring_case m body.
Proof.
  induction indicators as [|error rest IH]; simpl.
  - split; [discriminate | intros (m & [] & _)].
  - destruct (contains (lower error) (lower body)) eqn:E.
    + split; [|reflexivity]. intros _. exists error.
      split; [now left | now apply contains_lower_iff].
    + rewrite IH. split.
      * intros (m & Hm & Ho). exists m. split; [now right | exact Ho].
      * intros (m & [<-|Hm] & Ho); [|now exists m].
        apply contains_lower_iff in Ho. congruence.
Qed.

(** [check_platform] on a platform of the table, by the outcome of the
    request. *)
Lemma check_platform_eq (platforms : list (string * PlatformData))
    (session_get : Http) (platform username : string) (data : PlatformData) :
  getitem platforms platform = Ok data ->
  check_platform platforms session_get platform username =
  match session_get (format1 (url data) username) with
  | Ok response =>
      if status_code response =? 200
      then Ok (platform, format1 (url data) username,
               scan_indicators (default [] (error data)) (text response),
               "Success")
      else Ok (platform, format1 (url data) username, false,
               "Status: " +:+ pretty (status_code response))
  | Raise e =>
      if is_RequestException (exc_class e)
      then Ok (platform, format1 (url data) username, false,
               "Error: " +:+ exc_str e)
      else Raise e
  end.
Proof.
  intros Hget. unfold check_platform. rewrite Hget. cbn [bind].
  destruct (session_get _) as [response|e]; cbn [bind try_except_class].
  - now destruct (status_code response =? 200).
  - reflexivity.
Qed.

(** Every key of the table can be looked up. *)
Lemma getitem_key {V} (d : list (string * V)) (key : string) :
  In key (map fst d) -> exists v, getitem d key = Ok v.
Proof.
  induction d as [|[k v] d IH]; simpl; [intros []|].
  intros H. destruct (String.eqb k key) eqn:E; [now exists v|].
  destruct H as [->|H]; [|now apply IH].
  now rewrite String.eqb_refl in E.
Qed.

(** C2, as the code has it: [found] is true exactly for a 200 response in
    whose body no absence marker occurs (case disregarded); a 200 response
    with a marker gives [found = False] with the message "Success", any
    other status [found = False] with "Status: <code>", and a timeout or
    any other request exception gives the same [found = False], with the
    message "Error: <text>". *)
Theorem check_platform_classification
    (platforms : list (string * PlatformData)) (session_get : Http)
    (platform username : string) (data : PlatformData) :
  getitem platforms platform = Ok data ->
  let target := format1 (url data) username in
  let markers := default [] (error data) in
  let result := check_platform platforms session_get platform username in
  (found_flag result = Some true <->
     exists response,
       session_get target = Ok response /\ status_code response = 200 /\
       forall m, In m markers -> ~ occurs_ignoring_case m (text response))
  /\ (forall response,
        session_get target = Ok response -> status_code response = 200 ->
        (exists m, In m markers /\ occurs_ignoring_case m (text response)) ->
        result = Ok (platform, target, false, "Success"))
  /\ (forall response,
        session_get target = Ok response -> status_code response <> 200 ->
        result = Ok (platform, target, false,
                     "Status: " +:+ pretty (status_code response)))
  /\ (forall e,
        session_get target = Raise e ->
        is_RequestException (exc_class e) = true ->
        result = Ok (platform, target, false, "Error: " +:+ exc_str e)).
Proof.
  intros Hget target markers result.
  assert (Heq := check_platform_eq platforms session_get platform username
                   data Hget).
  fold target markers result in Heq.
  repeat split.
  - rewrite Heq. destruct (session_get target) as [response|e] eqn:Hr.
    + destruct (status_code response =? 200) eqn:Hs; cbn [found_flag].
      * intros [= Hscan]. exists response. apply Z.eqb_eq in Hs.
        repeat split; [exact Hs|].
        exact (proj1 (scan_indicators_true markers (text response)) Hscan).
      * discriminate.
    + destruct (is_RequestException _); cbn [found_flag]; discriminate.
  - intros (response & Hr & Hs & Hm). rewrite Heq, Hr.
    apply Z.eqb_eq in Hs. rewrite Hs. cbn [found_flag].
    f_equal. exact (proj2 (scan_indicators_true markers (text response)) Hm).
  - intros response Hr Hs Hm. rewrite Heq, Hr.
    apply Z.eqb_eq in Hs. rewrite Hs.
    now rewrite (proj2 (scan_indicators_false markers (text response)) Hm).
  - intros response Hr Hs. rewrite Heq, Hr.
    apply Z.eqb_neq in Hs. now rewrite Hs.
  - intros e Hr He. rewrite Heq, Hr. now rewrite He.
Qed.

Lemma check_platform_classification_witness :
  let session_get : Http :=
    fun _ => Ok (mkResponse 200 "<h1>NOT THE WEB PAGE</h1>" "" [] None) in
  let data := mkPlatform "https://github.com/{}"
                (Some ["This is not the web page you are looking for"]) in
  getitem load_platforms "GitHub" = Ok data /\
  (found_flag (check_platform load_platforms session_get "GitHub" "nemo")
     = Some true <->
   exists response,
     session_get "https://github.com/nemo" = Ok response /\
     status_code response = 200 /\
     forall m, In m ["This is not the web page you are looking for"] ->
               ~ occurs_ignoring_case m (text response)).
Proof.
  intros session_get data. split; [reflexivity|].
  exact (proj1 (check_platform_classification load_platforms session_get
                  "GitHub" "nemo" data eq_refl)).
Defined.

(** Against C2's "Indeterminate (not Absent) on timeout": a connection
    timeout and a 404 response leave the same [found] flag, [False], and
    the same line on the screen, so no reading of the flag makes the first
    Indeterminate and the second Absent. *)
Lemma check_platform_timeout_same_as_absent :
  let timed_out :=
    check_platform load_platforms
      (fun _ => Raise (mkExc ConnectTimeout "timed out")) "GitHub" "nemo" in
  let missing :=
    check_platform load_platforms
      (fun _ => Ok (mkResponse 404 "Not Found" "" [] None)) "GitHub" "nemo" in
  timed_out = Ok ("GitHub", "https://github.com/nemo", false,
                  "Error: timed out")
  /\ missing = Ok ("GitHub", "https://github.com/nemo", false, "Status: 404")
  /\ (platform_verdict <$> found_flag timed_out) = Some Absent
  /\ print_result "GitHub" "https://github.com/nemo" false "Error: timed out"
     = print_result "GitHub" "https://github.com/nemo" false "Status: 404"
  /\ ~ (exists reading : option bool -> Verdict,
          reading (found_flag missing) = Absent /\
          reading (found_flag timed_out) = Indeterminate).
Proof.
  intros timed_out missing.
  assert (Ht : timed_out = Ok ("GitHub", "https://github.com/nemo", false,
                               "Error: timed out")) by reflexivity.
  assert (Hm : missing = Ok ("GitHub", "https://github.com/nemo", false,
                             "Status: 404")) by (vm_compute; reflexivity).
  split; [exact Ht|]. split; [exact Hm|].
  split; [rewrite Ht; reflexivity|]. split; [reflexivity|].
  intros (reading & Ha & Hi). rewrite Ht in Hi. rewrite Hm in Ha.
  cbn [found_flag] in *. congruence.
Qed.

(** *** The search loop *)

(** Every class under which a fault comes out is a request exception,
    except urllib3's error for a malformed host name. *)
Lemma fault_classes_request_exceptions (f : Fault) (c : ExcClass) :
  In c (fault_classes f) ->
  c = LocationParseError \/ is_RequestException c = true.
Proof.
  destruct f; cbn; intros H;
    repeat (destruct H as [<-|H]; [auto|]); destruct H.
Qed.

Lemma shown_platform_show (r : PlatformResult) :
  shown_platform (show r) = r.1.1.1.
Proof. destruct r as [[[platform url] [|]] message]; reflexivity. Qed.

Lemma drain_ok (results : list PlatformResult) (out : list Shown) (n : nat) :
  drain (map Ok results) out n =
  Ok (out ++ map show results,
      (n + length (filter (fun r : PlatformResult => r.1.2 = true) results))%nat).
Proof.
  revert out n.
  induction results as [|[[[platform url] found] message] results IH];
    intros out n.
  - cbn. now rewrite app_nil_r, Nat.add_0_r.
  - cbn [map drain bind]. rewrite IH, <- app_assoc. cbn [app show].
    destruct found.
    + rewrite filter_cons_True by reflexivity. cbn [length].
      now rewrite Nat.add_succ_r.
    + now rewrite filter_cons_False by discriminate.
Qed.

Section Search.

Variable platforms : list (string * PlatformData).
Variable session_get : Http.
Variable username : string.

(** The only exceptions the session raises are request exceptions. *)
Hypothesis request_exceptions_only :
  forall target e,
    session_get target = Raise e -> is_RequestException (exc_class e) = true.

Lemma check_platform_returns (platform : string) :
  In platform (map fst platforms) ->
  exists url found message,
    check_platform platforms session_get platform username =
    Ok (platform, url, found, message).
Proof.
  intros Hin. destruct (getitem_key platforms platform Hin) as [data Hget].
  rewrite (check_platform_eq _ _ _ _ _ Hget).
  destruct (session_get _) as [response|e] eqn:Hr.
  - destruct (_ =? _); eauto.
  - rewrite (request_exceptions_only _ _ Hr). eauto.
Qed.

Lemma submitted_futures (names : list string) :
  (forall platform, In platform names -> In platform (map fst platforms)) ->
  exists results : list PlatformResult,
    map (fun platform => check_platform platforms session_get platform username)
        names = map Ok results
    /\ map (fun r : PlatformResult => r.1.1.1) results = names.
Proof.
  induction names as [|platform names IH]; intros Hsub.
  - now exists [].
  - destruct IH as (results & Hf & Hn).
    { intros q Hq. apply Hsub. now right. }
    destruct (check_platform_returns platform) as (url & found & message & Hc).
    { apply Hsub. now left. }
    exists ((platform, url, found, message) :: results).
    cbn [map]. rewrite Hc, Hf, Hn. split; reflexivity.
Qed.

(** However the pool orders the completions, the loop prints one line per
    platform and counts the found ones. *)
Lemma run_search_total (as_completed : list Future -> list Future) :
  (forall futures, as_completed futures ≡ₚ futures) ->
  exists (out : list Shown) (found_count : nat),
    run_search platforms session_get as_completed username
      = Ok (out, found_count)
    /\ map shown_platform out ≡ₚ map fst platforms
    /\ length out = length platforms
    /\ (found_count <= length out)%nat.
Proof.
  intros Hperm. unfold run_search.
  destruct (submitted_futures (map fst platforms)) as (results & Hf & Hn);
    [auto|].
  rewrite Hf.
  destruct (Permutation_map_inv Ok _ (Hperm (map Ok results)))
    as (results' & Heq & Hp).
  rewrite Heq, drain_ok. cbn [app].
  eexists _, _. split; [reflexivity|].
  assert (Hnames : map shown_platform (map show results') ≡ₚ map fst platforms).
  { rewrite map_map.
    rewrite (map_ext _ (fun r : PlatformResult => r.1.1.1))
      by apply shown_platform_show.
    rewrite <- Hn. apply Permutation_map. now symmetry. }

  split; [exact Hnames|]. split.
  - apply Permutation_length in Hnames.
    rewrite !length_map in Hnames. now rewrite length_map.
  - rewrite length_map. cbn [Nat.add]. apply length_filter.
Qed.

End Search.

End FindingNemoFacts.

Module InfoFacts.
Import Info.

(** *** The sequential port scan *)

Lemma port_scan_from_eq (sock : Sock) (ip : string) (ports open_ports : list Z) :
  port_scan_from sock ip ports open_ports =
  Ok (open_ports ++ filter (fun port => connects sock ip port = true) ports).
Proof.
  revert open_ports. induction ports as [|port ports IH]; intros open_ports.
  - cbn. now rewrite app_nil_r.
  - cbn [port_scan_from].
    assert (Hstep :
      try_except
        (let! result := sock ip port in
         if result =? 0 then Ok (open_ports ++ [port]) else Ok open_ports)
        (fun _ => Ok open_ports)
      = Ok (if connects sock ip port then open_ports ++ [port] else open_ports)).
    { unfold connects. destruct (sock ip port) as [result|e]; cbn; [|reflexivity].
      now destruct (result =? 0). }
    rewrite Hstep. cbn [bind]. rewrite IH.
    destruct (connects sock ip port) eqn:E.
    + rewrite filter_cons_True by exact E. now rewrite <- app_assoc.
    + rewrite filter_cons_False by (rewrite E; discriminate). reflexivity.
Qed.

Lemma port_scan_eq (sock : Sock) (ip : string) (ports : list Z) :
  port_scan sock ip ports =
  Ok (filter (fun port => connects sock ip port = true) ports).
Proof. unfold port_scan. now rewrite port_scan_from_eq. Qed.

Lemma sublist_count_occ (l k : list Z) (x : Z) :
  sublist l k -> (count_occ Z.eq_dec l x <= count_occ Z.eq_dec k x)%nat.
Proof.
  induction 1 as [|y l k _ IH|y l k _ IH]; cbn.
  - lia.
  - destruct (Z.eq_dec y x); lia.
  - destruct (Z.eq_dec y x); lia.
Qed.

(** C10: [port_scan] of info.py always returns, and what it returns is an
    ordered subsequence of the port list it was given: the ports for which
    the connection succeeded, in the order of the input, none more often
    than the input has it. *)
Theorem port_scan_subsequence (sock : Sock) (ip : string) (ports : list Z) :
  exists open_ports,
    port_scan sock ip ports = Ok open_ports
    /\ sublist open_ports ports
    /\ (forall port, port ∈ open_ports -> port ∈ ports)
    /\ (forall port,
          (count_occ Z.eq_dec open_ports port
           <= count_occ Z.eq_dec ports port)%nat)
    /\ (forall port,
          port ∈ open_ports <-> port ∈ ports /\ sock ip port = Ok 0).
Proof.
  rewrite port_scan_eq. eexists. split; [reflexivity|].
  assert (Hsub : sublist (filter (fun port => connects sock ip port = true) ports)
                         ports) by apply sublist_filter.
  split; [exact Hsub|]. split; [|split].
  - intros port Hin. now apply list_elem_of_filter in Hin.
  - intros port. now apply sublist_count_occ.
  - intros port. rewrite list_elem_of_filter. unfold connects.
    split.
    + intros [Hc Hin]. split; [exact Hin|].
      destruct (sock ip port) as [result|e]; [|discriminate].
      apply Z.eqb_eq in Hc. now subst.
    + intros [Hin ->]. now split.
Qed.

(** *** The geolocation cache *)

Lemma get_geolocation_hit (api : GeoApi) (st : GeoState) (ip : string)
    (data : GeoData) :
  geo_cache st !! ip = Some data ->
  get_geolocation api st ip = (Some data, st).
Proof. intros H. unfold get_geolocation. now rewrite H. Qed.

(** A lookup that returns data leaves that data in the cache under the
    key, and makes at most one outbound call. *)
Lemma get_geolocation_some (api : GeoApi) (st st1 : GeoState) (ip : string)
    (data : GeoData) :
  get_geolocation api st ip = (Some data, st1) ->
  geo_cache st1 !! ip = Some data /\ (outbound st1 <= S (outbound st))%nat.
Proof.
  unfold get_geolocation.
  destruct (geo_cache st !! ip) as [cached|] eqn:Hc.
  - intros [= <- <-]. split; [exact Hc | lia].
  - destruct (fetch api (outbound st) ip) as [[fetched|]|e];
      intros [= <- <-]; cbn.
    split; [apply lookup_insert_eq | lia].
Qed.

Lemma lookups_hit (api : GeoApi) (st : GeoState) (ip : string)
    (data : GeoData) (m : nat) :
  geo_cache st !! ip = Some data ->
  lookups api st (replicate m ip) = (replicate m (Some data), st).
Proof.
  intros H. induction m as [|m IH]; [reflexivity|].
  cbn [replicate lookups]. now rewrite (get_geolocation_hit _ _ _ _ H), IH.
Qed.

(** A worker that is never interrupted does what [get_geolocation] does. *)
Lemma run_uninterrupted (api : GeoApi) (st : GeoState) (ip : string) :
  run api [0; 0; 0]%nat st [mkWorker ip AtCheck] =
  ((get_geolocation api st ip).2,
   [mkWorker ip (Returned (get_geolocation api st ip).1)]).
Proof.
  unfold get_geolocation. cbn [run lookup list_lookup step w_pc w_ip].
  destruct (geo_cache st !! ip) as [cached|] eqn:Hc; cbn; [reflexivity|].
  destruct (fetch api (outbound st) ip) as [[fetched|]|e]; reflexivity.
Qed.

(** C8, as the code has it: [get_geolocation] takes no lock, and the tool
    only calls it from its single monitoring loop.  Once a lookup of a key
    has returned data (making at most one outbound call), every later
    lookup of that key, made one after the other, returns the same data
    and makes no outbound call, whatever the service would answer. *)
Theorem get_geolocation_cached (api : GeoApi) (st st1 : GeoState)
    (ip : string) (data : GeoData) :
  get_geolocation api st ip = (Some data, st1) ->
  (outbound st1 <= S (outbound st))%nat
  /\ forall (later : GeoApi) (m : nat),
       lookups later st1 (replicate m ip) = (replicate m (Some data), st1).
Proof.
  intros H. apply get_geolocation_some in H as [Hc Hn].
  split; [exact Hn|]. intros later m. now apply lookups_hit.
Qed.

Lemma get_geolocation_cached_witness :
  let api : GeoApi :=
    fun _ _ => Ok (mkResponse 200 "" "" [] (Some {[ "country" := "Norway" ]})) in
  let st1 := mkGeo {[ "192.0.2.7" := {[ "country" := "Norway" ]} ]} 1 in
  get_geolocation api (mkGeo ∅ 0) "192.0.2.7"
    = (Some {[ "country" := "Norway" ]}, st1)
  /\ (outbound st1 <= 1)%nat
  /\ forall (later : GeoApi) (m : nat),
       lookups later st1 (replicate m "192.0.2.7")
       = (replicate m (Some {[ "country" := "Norway" ]}), st1).
Proof.
  intros api st1.
  assert (H : get_geolocation api (mkGeo ∅ 0) "192.0.2.7"
              = (Some {[ "country" := "Norway" ]}, st1)) by reflexivity.
  split; [exact H|].
  exact (get_geolocation_cached api (mkGeo ∅ 0) st1 "192.0.2.7" _ H).
Defined.

(** Against C8: two workers look up the same address at once.  Both test
    the cache before either has stored its answer, so both call the
    service (two outbound calls for one key), and when the service answers
    the two calls differently the two callers return different values. *)
Lemma get_geolocation_concurrent_miss :
  let oslo : GeoData := {[ "city" := "Oslo" ]} in
  let bergen : GeoData := {[ "city" := "Bergen" ]} in
  let api : GeoApi :=
    fun n _ => Ok (mkResponse 200 "" "" []
                     (Some (if Nat.eqb n 0 then oslo else bergen))) in
  let workers := [mkWorker "192.0.2.7" AtCheck; mkWorker "192.0.2.7" AtCheck] in
  let final := run api [0; 1; 0; 1; 0; 1]%nat (mkGeo ∅ 0) workers in
  outbound final.1 = 2%nat
  /\ final.2 = [mkWorker "192.0.2.7" (Returned (Some oslo));
                mkWorker "192.0.2.7" (Returned (Some bergen))]
  /\ oslo <> bergen.
Proof.
  intros oslo bergen api workers final.
  split; [reflexivity|]. split; [reflexivity|].
  intros H. apply (f_equal (fun d : GeoData => d !! "city")) in H.
  vm_compute in H. discriminate.
Qed.

(** *** The header fetch *)

Lemma get_http_headers_eq (requests_get : Http) (ip : string) :
  get_http_headers requests_get ip =
  Ok (match requests_get ("http://" +:+ ip) with
      | Ok response => Some (http_info_of response via_http)
      | Raise _ =>
          match requests_get ("https://" +:+ ip) with
          | Ok response => Some (http_info_of response via_https)
          | Raise _ => None
          end
      end).
Proof.
  unfold get_http_headers.
  destruct (requests_get ("http://" +:+ ip)); cbn; [reflexivity|].
  now destruct (requests_get ("https://" +:+ ip)).
Qed.

(** C6: the header fetch is Present as soon as the HTTP or the HTTPS
    request returns a response, whatever its status, and Indeterminate only
    when both requests raise; two servers that answer (or fail) on the same
    URLs get the same verdict, whatever status and headers they send. *)
Theorem get_http_headers_classification (requests_get : Http) (ip : string) :
  exists http_info,
    get_http_headers requests_get ip = Ok http_info
    /\ (header_verdict http_info = Present <->
          returns (requests_get ("http://" +:+ ip))
          \/ returns (requests_get ("https://" +:+ ip)))
    /\ (header_verdict http_info = Indeterminate <->
          (exists e, requests_get ("http://" +:+ ip) = Raise e)
          /\ (exists e, requests_get ("https://" +:+ ip) = Raise e))
    /\ (forall (other : Http) other_info,
          (forall target, returns (requests_get target) <-> returns (other target)) ->
          get_http_headers other ip = Ok other_info ->
          header_verdict other_info = header_verdict http_info).
Proof.
  rewrite get_http_headers_eq. eexists. split; [reflexivity|].
  unfold returns.
  split; [|split].
  - destruct (requests_get ("http://" +:+ ip)) as [r1|e1].
    + split; [intros _; left; now exists r1 | reflexivity].
    + destruct (requests_get ("https://" +:+ ip)) as [r2|e2].
      * split; [intros _; right; now exists r2 | reflexivity].
      * cbn. split; [discriminate|].
        intros [[r [=]] | [r [=]]].
  - destruct (requests_get ("http://" +:+ ip)) as [r1|e1].
    + split; [discriminate | intros [[e [=]] _]].
    + destruct (requests_get ("https://" +:+ ip)) as [r2|e2].
      * split; [discriminate | intros [_ [e [=]]]].
      * split; [|reflexivity]. intros _. split; eauto.
  - intros other other_info Hsame. rewrite get_http_headers_eq.
    intros [= <-].
    pose proof (Hsame ("http://" +:+ ip)) as H1.
    pose proof (Hsame ("https://" +:+ ip)) as H2.
    unfold returns in H1, H2.
    destruct (requests_get ("http://" +:+ ip)) as [r1|e1],
             (other ("http://" +:+ ip)) as [o1|f1]; try reflexivity.
    + destruct (proj1 H1 (ex_intro _ r1 eq_refl)) as [? [=]].
    + destruct (proj2 H1 (ex_intro _ o1 eq_refl)) as [? [=]].
    + destruct (requests_get ("https://" +:+ ip)) as [r2|e2],
               (other ("https://" +:+ ip)) as [o2|f2]; try reflexivity.
      * destruct (proj1 H2 (ex_intro _ r2 eq_refl)) as [? [=]].
      * destruct (proj2 H2 (ex_intro _ o2 eq_refl)) as [? [=]].
Qed.

End InfoFacts.

Module PromptFacts.

(** *** Targets typed at the prompts *)

Lemma truthy_nonempty (s : string) : truthy s = true <-> s <> "".
Proof. destruct s; cbn; split; congruence. Qed.

Lemma validate_url_nonempty (target : string) :
  target <> "" -> ServerRecon.validate_url target <> "".
Proof.
  intros H. unfold ServerRecon.validate_url.
  destruct (negb _); [discriminate | exact H].
Qed.

Section Interactive.

Variable platforms : list (string * FindingNemo.PlatformData).
Variable session_get : Http.
Variable as_completed : list FindingNemo.Future -> list FindingNemo.Future.

Lemma interactive_mode_blank (line : string) (rest : list FindingNemo.Input) :
  strip line = "" ->
  FindingNemo.interactive_mode platforms session_get as_completed
    (FindingNemo.Line line :: rest)
  = FindingNemo.interactive_mode platforms session_get as_completed rest.
Proof. intros H. cbn [FindingNemo.interactive_mode]. now rewrite H. Qed.

Lemma interactive_mode_nonempty (inputs : list FindingNemo.Input)
    (username : string) (outcome : Result (list FindingNemo.Shown * nat)) :
  In (FindingNemo.Search username outcome)
     (FindingNemo.interactive_mode platforms session_get as_completed inputs) ->
  username <> "".
Proof.
  induction inputs as [|[line|] rest IH]; cbn [FindingNemo.interactive_mode].
  - intros [].
  - destruct (truthy (strip line)) eqn:Ht; cbn [negb]; [|exact IH].
    apply truthy_nonempty in Ht.
    destruct (bool_decide _).
    + intros [[=]|[]].
    + destruct (FindingNemo.run_search _ _ _ _) as [r|e].
      * intros [[= <- _]|H]; [exact Ht | now apply IH].
      * destruct (is_Exception (exc_class e)).
        -- intros [[= <- _]|H]; [exact Ht | now apply IH].
        -- intros [[= <- _]|[[=]|[]]]. exact Ht.
  - intros [[=]|[]].
Qed.

End Interactive.

Section GetTarget.

Variable requests_get : Http.

Lemma get_target_blank (line : string) (rest : list string) :
  strip line = "" ->
  ServerRecon.get_target requests_get (line :: rest)
  = (ServerRecon.InvalidTarget :: (ServerRecon.get_target requests_get rest).1,
     (ServerRecon.get_target requests_get rest).2).
Proof.
  intros H. cbn [ServerRecon.get_target]. rewrite H. cbn [truthy].
  now destruct (ServerRecon.get_target requests_get rest).
Qed.

Lemma get_target_nonempty_upto (n : nat) (inputs : list string) :
  (length inputs <= n)%nat ->
  (forall url,
     In (ServerRecon.Requested url)
        (ServerRecon.get_target requests_get inputs).1 -> url <> "")
  /\ (forall validated_target,
        (ServerRecon.get_target requests_get inputs).2
          = ServerRecon.Target validated_target ->
        validated_target <> "").
Proof.
  revert inputs. induction n as [|n IH]; intros [|line rest] Hlen;
    try (cbn in Hlen; lia);
    try (cbn; split; [intros ? [] | discriminate]).
  cbn [ServerRecon.get_target].
  assert (Hrest : (length rest <= n)%nat) by (cbn in Hlen; lia).
  destruct (truthy (strip line)) eqn:Ht.
  - apply truthy_nonempty, validate_url_nonempty in Ht.
    set (v := ServerRecon.validate_url (strip line)) in *.
    assert (Hone : forall url,
              In (ServerRecon.Requested url) [ServerRecon.Requested v] ->
              url <> "").
    { intros url [[= <-]|[]]. exact Ht. }
    destruct (requests_get v) as [response|e].
    + cbn. split; [exact Hone | now intros t [= <-]].
    + destruct (is_RequestException (exc_class e)).
      * destruct rest as [|choice rest'].
        -- cbn. split; [exact Hone | discriminate].
        -- destruct (String.eqb (lower choice) "y").
           ++ cbn. split; [exact Hone | now intros t [= <-]].
           ++ destruct (IH rest') as [H1 H2]; [cbn in Hrest; lia|].
              destruct (ServerRecon.get_target requests_get rest') as [evs out].
              cbn in *. split; [|exact H2].
              intros url [[= <-]|H]; [exact Ht | now apply H1].
      * cbn. split; [exact Hone | discriminate].
  - destruct (IH rest Hrest) as [H1 H2].
    destruct (ServerRecon.get_target requests_get rest) as [evs out].
    cbn in *. split; [|exact H2].
    intros url [[=]|H]. now apply H1.
Qed.

End GetTarget.

Lemma info_main_nonempty (line hostname : string) :
  In (Info.ContinuousMonitoring hostname) (Info.main line) -> hostname <> "".
Proof.
  unfold Info.main. destruct (truthy (strip line)) eqn:Ht; cbn [negb].
  - intros [[= <-]|[]]. now apply truthy_nonempty.
  - intros [[=]|[[= <-]|[]]]. discriminate.
Qed.

(** C7, as the code has it: at the prompt of each tool no probe is ever
    issued for an empty target.  [interactive_mode] of findingnemo and
    [get_target] of server_recon skip a blank line and prompt again;
    [main] of info replaces a blank line by the default host "google.com"
    and monitors that.  A blank line stops none of the three. *)
Theorem blank_target_never_probed
    (platforms : list (string * FindingNemo.PlatformData))
    (session_get : Http)
    (as_completed : list FindingNemo.Future -> list FindingNemo.Future)
    (requests_get : Http) :
  (forall inputs username outcome,
     In (FindingNemo.Search username outcome)
        (FindingNemo.interactive_mode platforms session_get as_completed inputs) ->
     username <> "")
  /\ (forall line rest,
        strip line = "" ->
        FindingNemo.interactive_mode platforms session_get as_completed
          (FindingNemo.Line line :: rest)
        = FindingNemo.interactive_mode platforms session_get as_completed rest)
  /\ (forall inputs url,
        In (ServerRecon.Requested url)
           (ServerRecon.get_target requests_get inputs).1 -> url <> "")
  /\ (forall inputs validated_target,
        (ServerRecon.get_target requests_get inputs).2
          = ServerRecon.Target validated_target ->
        validated_target <> "")
  /\ (forall line rest,
        strip line = "" ->
        ServerRecon.get_target requests_get (line :: rest)
        = (ServerRecon.InvalidTarget
             :: (ServerRecon.get_target requests_get rest).1,
           (ServerRecon.get_target requests_get rest).2))
  /\ (forall line hostname,
        In (Info.ContinuousMonitoring hostname) (Info.main line) ->
        hostname <> "")
  /\ (forall line,
        strip line = "" ->
        Info.main line
        = [Info.PrintedDefaultNotice; Info.ContinuousMonitoring "google.com"]).
Proof.
  split; [apply interactive_mode_nonempty|].
  split; [apply interactive_mode_blank|].
  split; [intros inputs; apply (get_target_nonempty_upto _ (length inputs));
          reflexivity|].
  split; [intros inputs; apply (get_target_nonempty_upto _ (length inputs));
          reflexivity|].
  split; [apply get_target_blank|].
  split; [apply info_main_nonempty|].
  intros line H. unfold Info.main. now rewrite H.
Qed.

(** Against C7: info.py does not reject an empty hostname.  It prints a
    notice and starts monitoring the default host. *)
Lemma info_main_empty_not_rejected :
  Info.main ""
  = [Info.PrintedDefaultNotice; Info.ContinuousMonitoring "google.com"]
  /\ In (Info.ContinuousMonitoring "google.com") (Info.main "   ").
Proof. split; [reflexivity|]. right; now left. Qed.

(** Outside the prompts: an empty command-line argument of findingnemo is
    searched as it is. *)
Lemma findingnemo_main_empty_argument
    (platforms : list (string * FindingNemo.PlatformData))
    (session_get : Http)
    (as_completed : list FindingNemo.Future -> list FindingNemo.Future) :
  FindingNemo.main platforms session_get as_completed ["findingnemo.py"; ""] []
  = [FindingNemo.Search ""
       (FindingNemo.run_search platforms session_get as_completed "")].
Proof. reflexivity. Qed.

End PromptFacts.

Module ScanFacts.

(** C1: a completed scan has exactly one verdict per submitted probe.  The
    username search prints one line per platform of the table, whatever the
    order in which the pool completes the calls and also when requests time
    out or fail; the port scan and the path scan read one result per port
    and per path, in the order submitted. *)
Theorem scan_one_verdict_per_probe
    (platforms : list (string * FindingNemo.PlatformData))
    (session_get : Http)
    (as_completed : list FindingNemo.Future -> list FindingNemo.Future)
    (username : string)
    (sock : Sock) (hostname : string) (ports : list Z)
    (urljoin : string -> string -> string) (requests_get : Http)
    (url : string) (paths : list string) :
  (forall target e,
     session_get target = Raise e -> is_RequestException (exc_class e) = true) ->
  (forall futures, as_completed futures ≡ₚ futures) ->
  (exists out found_count,
     FindingNemo.run_search platforms session_get as_completed username
       = Ok (out, found_count)
     /\ length out = length platforms
     /\ map FindingNemo.shown_platform out ≡ₚ map fst platforms)
  /\ (exists seen open_ports,
        ServerRecon.scan_ports sock hostname ports = Ok (seen, open_ports)
        /\ length seen = length ports
        /\ map fst seen = ports)
  /\ (exists seen found_paths,
        ServerRecon.probe_paths urljoin requests_get url paths
          = Ok (seen, found_paths)
        /\ length seen = length paths
        /\ map (ServerRecon.check_hidden_path urljoin requests_get url) paths
           = map Ok seen).
Proof.
  intros Hexc Hperm. split; [|split].
  - destruct (FindingNemoFacts.run_search_total platforms session_get username
                Hexc as_completed Hperm)
      as (out & found_count & Hrun & Hnames & Hlen & _).
    now exists out, found_count.
  - rewrite ServerReconFacts.scan_ports_eq. eexists _, _.
    split; [reflexivity|]. split; [now rewrite length_map|].
    rewrite map_map. cbn [fst]. apply map_id.
  - destruct (ServerReconFacts.probe_paths_eq urljoin requests_get url paths)
      as (results & Hmap & Hrun).
    eexists _, _. split; [exact Hrun|]. split; [|exact Hmap].
    apply (f_equal length) in Hmap. now rewrite !length_map in Hmap.
Qed.

Lemma scan_one_verdict_per_probe_witness :
  let session_get : Http := fun _ => Raise (mkExc ConnectTimeout "timed out") in
  let sock : Sock := fun _ port => if port =? 80 then Ok 0 else Ok 111 in
  let urljoin := fun base path : string => base +:+ "/" +:+ path in
  let requests_get : Http :=
    fun _ => Raise (mkExc ConnectionError "Connection refused") in
  (forall target e,
     session_get target = Raise e -> is_RequestException (exc_class e) = true)
  /\ (forall futures : list FindingNemo.Future, rev futures ≡ₚ futures)
  /\ (exists out found_count,
        FindingNemo.run_search FindingNemo.load_platforms session_get (@rev _)
          "nemo" = Ok (out, found_count)
        /\ length out = length FindingNemo.load_platforms
        /\ map FindingNemo.shown_platform out
           ≡ₚ map fst FindingNemo.load_platforms)
  /\ (exists seen open_ports,
        ServerRecon.scan_ports sock "example.com" ServerRecon.COMMON_PORTS
          = Ok (seen, open_ports)
        /\ length seen = length ServerRecon.COMMON_PORTS
        /\ map fst seen = ServerRecon.COMMON_PORTS)
  /\ (exists seen found_paths,
        ServerRecon.probe_paths urljoin requests_get "http://example.com"
          ServerRecon.HIDDEN_PATHS = Ok (seen, found_paths)
        /\ length seen = length ServerRecon.HIDDEN_PATHS
        /\ map (ServerRecon.check_hidden_path urljoin requests_get
                  "http://example.com") ServerRecon.HIDDEN_PATHS
           = map Ok seen).
Proof.
  intros session_get sock urljoin requests_get.
  assert (H1 : forall target e,
             session_get target = Raise e ->
             is_RequestException (exc_class e) = true).
  { intros target e [= <-]. reflexivity. }
  assert (H2 : forall futures : list FindingNemo.Future, rev futures ≡ₚ futures).
  { intros futures. symmetry. apply Permutation_rev. }
  split; [exact H1|]. split; [exact H2|].
  exact (scan_one_verdict_per_probe FindingNemo.load_platforms session_get
           (@rev _) "nemo" sock "example.com" ServerRecon.COMMON_PORTS
           urljoin requests_get "http://example.com" ServerRecon.HIDDEN_PATHS
           H1 H2).
Defined.

(** C3, as the code has it: every fault that comes out of the HTTP library
    as a request exception ends inside the worker; that is every DNS
    failure, refused connection, timeout and transport error, and every
    malformed target that [requests] itself rejects.  [check_platform]
    turns it into the tuple with [found = False] and the reason
    "Error: <text>"; [check_hidden_path] turns any exception at all into
    the bare result [None], the same it returns for a missing path,
    without a reason.  Neither raises on such a fault, and both scans run
    to the end with one result per probe. *)
Theorem faults_end_in_the_worker
    (platforms : list (string * FindingNemo.PlatformData))
    (session_get : Http)
    (as_completed : list FindingNemo.Future -> list FindingNemo.Future)
    (username : string)
    (urljoin : string -> string -> string) (requests_get : Http)
    (url : string) (paths : list string) :
  (forall f c,
     In c (fault_classes f) -> f <> MalformedTarget ->
     is_RequestException c = true)
  /\ (forall c,
        In c (fault_classes MalformedTarget) -> c <> LocationParseError ->
        is_RequestException c = true)
  /\ (forall platform data e,
        FindingNemo.getitem platforms platform = Ok data ->
        session_get (format1 (FindingNemo.url data) username) = Raise e ->
        is_RequestException (exc_class e) = true ->
        FindingNemo.check_platform platforms session_get platform username
        = Ok (platform, format1 (FindingNemo.url data) username, false,
              "Error: " +:+ exc_str e))
  /\ (forall path e,
        requests_get (urljoin url path) = Raise e ->
        ServerRecon.check_hidden_path urljoin requests_get url path = Ok None)
  /\ ((forall target e,
         session_get target = Raise e ->
         is_RequestException (exc_class e) = true) ->
      (forall futures, as_completed futures ≡ₚ futures) ->
      exists out found_count,
        FindingNemo.run_search platforms session_get as_completed username
          = Ok (out, found_count)
        /\ length out = length platforms)
  /\ (exists seen found_paths,
        ServerRecon.probe_paths urljoin requests_get url paths
          = Ok (seen, found_paths)
        /\ length seen = length paths).
Proof.
  split; [|split; [|split; [|split; [|split]]]].
  - intros f c Hc Hf.
    destruct (FindingNemoFacts.fault_classes_request_exceptions f c Hc)
      as [->|H]; [|exact H].
    destruct f; cbn in Hc; try contradiction;
      repeat (destruct Hc as [[=]|Hc]); destruct Hc.
  - intros c Hc Hne.
    destruct (FindingNemoFacts.fault_classes_request_exceptions _ c Hc)
      as [->|H]; [contradiction | exact H].
  - intros platform data e Hget He Hreq.
    rewrite (FindingNemoFacts.check_platform_eq _ _ _ _ _ Hget), He.
    now rewrite Hreq.
  - intros path e He. rewrite ServerReconFacts.check_hidden_path_eq.
    now rewrite He.
  - intros Hexc Hperm.
    destruct (FindingNemoFacts.run_search_total platforms session_get username
                Hexc as_completed Hperm)
      as (out & found_count & Hrun & _ & Hlen & _).
    now exists out, found_count.
  - destruct (ServerReconFacts.probe_paths_eq urljoin requests_get url paths)
      as (results & Hmap & Hrun).
    eexists _, _. split; [exact Hrun|].
    apply (f_equal length) in Hmap. now rewrite !length_map in Hmap.
Qed.

Lemma faults_end_in_the_worker_witness :
  let session_get : Http :=
    fun _ => Raise (mkExc ConnectionError "Name or service not known") in
  let urljoin := fun base path : string => base +:+ "/" +:+ path in
  let requests_get : Http :=
    fun _ => Raise (mkExc ConnectTimeout "timed out") in
  (forall target e,
     session_get target = Raise e -> is_RequestException (exc_class e) = true)
  /\ (forall futures : list FindingNemo.Future, rev futures ≡ₚ futures)
  /\ In ConnectionError (fault_classes DnsResolutionFailure)
  /\ In ConnectTimeout (fault_classes ConnectionTimeout)
  /\ FindingNemo.check_platform FindingNemo.load_platforms session_get
       "Reddit" "nemo"
     = Ok ("Reddit", "https://www.reddit.com/user/nemo", false,
           "Error: Name or service not known")
  /\ ServerRecon.check_hidden_path urljoin requests_get "http://example.com"
       ".env" = Ok None
  /\ exists out found_count,
       FindingNemo.run_search FindingNemo.load_platforms session_get (@rev _)
         "nemo" = Ok (out, found_count)
       /\ length out = length FindingNemo.load_platforms.
Proof.
  intros session_get urljoin requests_get.
  assert (H1 : forall target e,
             session_get target = Raise e ->
             is_RequestException (exc_class e) = true).
  { intros target e [= <-]. reflexivity. }
  assert (H2 : forall futures : list FindingNemo.Future, rev futures ≡ₚ futures).
  { intros futures. symmetry. apply Permutation_rev. }
  split; [exact H1|]. split; [exact H2|].
  split; [now left|]. split; [now left|].
  destruct (faults_end_in_the_worker FindingNemo.load_platforms session_get
              (@rev _) "nemo" urljoin requests_get "http://example.com"
              ServerRecon.HIDDEN_PATHS) as (_ & _ & Hp & Hh & Hrun & _).
  split; [exact (Hp "Reddit" _ _ eq_refl eq_refl eq_refl)|].
  split; [exact (Hh ".env" _ eq_refl) | exact (Hrun H1 H2)].
Defined.

(** Beside C3: a malformed target that comes out of the library as
    urllib3's [LocationParseError] is not a request exception, and
    [check_platform] lets it through. *)
Lemma check_platform_lets_location_parse_error_through :
  let e := mkExc LocationParseError "label empty or too long" in
  In (exc_class e) (fault_classes MalformedTarget)
  /\ is_RequestException (exc_class e) = false
  /\ FindingNemo.check_platform FindingNemo.load_platforms
       (fun _ => Raise e) "DevianArt"
       "aaaaaaaaaaaaaaaaaaaaaaaaaaaaaaaaaaaaaaaaaaaaaaaaaaaaaaaaaaaaaaaa"
     = Raise e.
Proof.
  intros e. split; [cbn; tauto|]. split; reflexivity.
Qed.

(** Against C3's "carrying a reason string": from [check_hidden_path] a
    refused connection, a timeout and a plain 404 all come back as the same
    [None], so nothing read from the outcome can tell why the probe
    failed. *)
Lemma check_hidden_path_fault_without_reason :
  let urljoin := fun base path : string => base +:+ "/" +:+ path in
  let probe (requests_get : Http) :=
    ServerRecon.check_hidden_path urljoin requests_get
      "http://example.com" "admin" in
  let refused :=
    probe (fun _ => Raise (mkExc ConnectionError "Connection refused")) in
  let timed_out := probe (fun _ => Raise (mkExc ConnectTimeout "timed out")) in
  let missing := probe (fun _ => Ok (mkResponse 404 "" "" [] None)) in
  refused = Ok None /\ timed_out = Ok None /\ missing = Ok None
  /\ ~ (exists reason : Result (option ServerRecon.PathHit) -> string,
          reason refused = "Connection refused"
          /\ reason timed_out = "timed out").
Proof.
  intros urljoin probe refused timed_out missing.
  split; [reflexivity|]. split; [reflexivity|]. split; [reflexivity|].
  intros (reason & Hr & Ht).
  change timed_out with refused in Ht. rewrite Hr in Ht. discriminate.
Qed.

(** C5: for every host and every port, a port probe is Present exactly
    when the connection attempt completes (errno 0) and Absent when it is
    refused, times out or raises; in particular, on a host where port 80
    accepts connections and ports 81 and 9999 do not, scanning 80, 81 and
    9999 reports 80 open and the other two closed, three results in all. *)
Theorem tcp_connect_classification (sock : Sock) (hostname : string) :
  (forall port,
     exists is_open,
       ServerRecon.scan_port sock hostname port = Ok (port, is_open)
       /\ (ServerRecon.port_verdict is_open = Present <->
             sock hostname port = Ok 0)
       /\ (ServerRecon.port_verdict is_open = Absent <->
             sock hostname port <> Ok 0))
  /\ (sock hostname 80 = Ok 0 ->
      sock hostname 81 <> Ok 0 ->
      sock hostname 9999 <> Ok 0 ->
      ServerRecon.scan_ports sock hostname [80; 81; 9999]
      = Ok ([(80, true); (81, false); (9999, false)], [80])
      /\ Info.port_scan sock hostname [80; 81; 9999] = Ok [80]).
Proof.
  assert (Hc : forall port, connects sock hostname port = true <->
                            sock hostname port = Ok 0).
  { intros port. unfold connects.
    destruct (sock hostname port) as [result|e].
    - rewrite Z.eqb_eq. split; [now intros -> | now intros [= ->]].
    - split; discriminate. }
  assert (Hn : forall port, sock hostname port <> Ok 0 ->
                            connects sock hostname port = false).
  { intros port H. destruct (connects sock hostname port) eqn:E; [|reflexivity].
    now apply Hc in E. }
  split.
  - intros port. rewrite ServerReconFacts.scan_port_eq.
    eexists. split; [reflexivity|].
    destruct (connects sock hostname port) eqn:E; cbn [ServerRecon.port_verdict].
    + apply Hc in E. split; split; try discriminate; try reflexivity.
      * now intros _.
      * intros H. contradiction.
    + split; split; try discriminate; try reflexivity.
      * intros H. apply Hc in H. congruence.
      * intros _ H. apply Hc in H. congruence.
  - intros H80 H81 H9999. split.
    + rewrite ServerReconFacts.scan_ports_eq. cbn [map].
      rewrite filter_cons_True by (apply Hc; exact H80).
      rewrite filter_cons_False by (rewrite (Hn 81 H81); discriminate).
      rewrite filter_cons_False by (rewrite (Hn 9999 H9999); discriminate).
      rewrite (proj2 (Hc 80) H80), (Hn 81 H81), (Hn 9999 H9999).
      reflexivity.
    + rewrite InfoFacts.port_scan_eq.
      rewrite filter_cons_True by (apply Hc; exact H80).
      rewrite filter_cons_False by (rewrite (Hn 81 H81); discriminate).
      rewrite filter_cons_False by (rewrite (Hn 9999 H9999); discriminate).
      reflexivity.
Qed.

Lemma tcp_connect_classification_witness :
  let sock : Sock :=
    fun _ port => if port =? 80 then Ok 0
                  else if port =? 81 then Ok 111
                  else Raise (mkExc OSError "timed out") in
  sock "example.com" 80 = Ok 0
  /\ sock "example.com" 81 <> Ok 0
  /\ sock "example.com" 9999 <> Ok 0
  /\ ServerRecon.scan_ports sock "example.com" [80; 81; 9999]
     = Ok ([(80, true); (81, false); (9999, false)], [80])
  /\ Info.port_scan sock "example.com" [80; 81; 9999] = Ok [80].
Proof.
  intros sock.
  assert (H80 : sock "example.com" 80 = Ok 0) by reflexivity.
  assert (H81 : sock "example.com" 81 <> Ok 0) by discriminate.
  assert (H9999 : sock "example.com" 9999 <> Ok 0) by discriminate.
  split; [exact H80|]. split; [exact H81|]. split; [exact H9999|].
  exact (proj2 (tcp_connect_classification sock "example.com") H80 H81 H9999).
Defined.

End ScanFacts.

(** * Further properties of findingnemo.py *)

Module SearchExtras.
Import FindingNemo.

Lemma filter_found_snoc (out : list Shown) (s : Shown) :
  length (filter (fun s => shown_found s = true) (out ++ [s]))
  = (length (filter (fun s => shown_found s = true) out)
     + (if shown_found s then 1 else 0))%nat.
Proof.
  rewrite filter_app, length_app. f_equal.
  destruct (shown_found s) eqn:E.
  - now rewrite filter_cons_True by exact E.
  - now rewrite filter_cons_False by (rewrite E; discriminate).
Qed.

Lemma drain_counts (completed : list Future) (out out' : list Shown)
    (n n' : nat) :
  drain completed out n = Ok (out', n') ->
  (n' + length (filter (fun s => shown_found s = true) out)
   = n + length (filter (fun s => shown_found s = true) out'))%nat.
Proof.
  revert out n. induction completed as [|future rest IH]; intros out n.
  - cbn. intros [= <- <-]. lia.
  - cbn [drain]. destruct future as [[[[platform url] found] message]|e];
      cbn [bind]; [|discriminate].
    intros H. apply IH in H. rewrite filter_found_snoc in H.
    destruct found; cbn in H; lia.
Qed.

(** X1: whenever [run_search] gets to its summary, the number of accounts
    it reports as found is the number of "[ FOUND ]" lines it printed. *)
Theorem run_search_count_matches_output
    (platforms : list (string * PlatformData)) (session_get : Http)
    (as_completed : list Future -> list Future) (username : string)
    (out : list Shown) (found_count : nat) :
  run_search platforms session_get as_completed username
    = Ok (out, found_count) ->
  found_count = length (filter (fun s => shown_found s = true) out).
Proof.
  unfold run_search. intros H. apply drain_counts in H. cbn in H. lia.
Qed.

Lemma run_search_count_matches_output_witness :
  let session_get : Http :=
    fun target =>
      if contains "github" target
      then Ok (mkResponse 200 "<title>nemo</title>" "" [] None)
      else Ok (mkResponse 404 "" "" [] None) in
  exists out,
    run_search load_platforms session_get (@rev _) "nemo" = Ok (out, 1%nat)
    /\ 1%nat = length (filter (fun s => shown_found s = true) out).
Proof.
  intros session_get. eexists. split; [vm_compute; reflexivity|].
  apply (run_search_count_matches_output load_platforms session_get (@rev _)
           "nemo").
  vm_compute. reflexivity.
Defined.

(** The loop stops at the first future that holds an exception. *)
Lemma drain_raises (completed : list Future) (out : list Shown) (n : nat)
    (e : Exc) :
  In (Raise e) completed ->
  exists e', drain completed out n = Raise e' /\ In (Raise e') completed.
Proof.
  revert out n. induction completed as [|future rest IH]; intros out n; [intros []|].
  intros Hin. cbn [drain].
  destruct future as [[[[platform url] found] message]|e0]; cbn [bind].
  - destruct Hin as [[=]|Hin].
    edestruct IH as (e' & Hd & He'); [exact Hin|].
    exists e'. split; [exact Hd | now right].
  - exists e0. split; [reflexivity | now left].
Qed.

Lemma check_platform_raises_only_foreign
    (platforms : list (string * PlatformData)) (session_get : Http)
    (platform username : string) (e : Exc) :
  In platform (map fst platforms) ->
  check_platform platforms session_get platform username = Raise e ->
  is_RequestException (exc_class e) = false.
Proof.
  intros Hin. destruct (FindingNemoFacts.getitem_key platforms platform Hin)
    as [data Hget].
  rewrite (FindingNemoFacts.check_platform_eq _ _ _ _ _ Hget).
  destruct (session_get _) as [response|e0].
  - destruct (_ =? _); discriminate.
  - destruct (is_RequestException (exc_class e0)) eqn:E; [discriminate|].
    now intros [= <-].
Qed.

Lemma getitem_ok_key {V} (d : list (string * V)) (key : string) (v : V) :
  getitem d key = Ok v -> In key (map fst d).
Proof.
  induction d as [|[k v0] d IH]; cbn; [discriminate|].
  destruct (String.eqb k key) eqn:E.
  - intros _. left. now apply String.eqb_eq.
  - intros H. right. now apply IH.
Qed.

(** X2: [check_platform] catches request exceptions only.  When the request
    of one platform raises anything else, the whole search raises an
    exception of that kind, whatever the completion order, and there is no
    summary. *)
Theorem run_search_aborts_on_foreign_exception
    (platforms : list (string * PlatformData)) (session_get : Http)
    (as_completed : list Future -> list Future) (username : string)
    (platform : string) (data : PlatformData) (e : Exc) :
  (forall futures, as_completed futures ≡ₚ futures) ->
  getitem platforms platform = Ok data ->
  session_get (format1 (url data) username) = Raise e ->
  is_RequestException (exc_class e) = false ->
  exists e',
    run_search platforms session_get as_completed username = Raise e'
    /\ is_RequestException (exc_class e') = false.
Proof.
  intros Hperm Hget Hraise Hforeign. unfold run_search.
  assert (Hin := getitem_ok_key _ _ _ Hget).
  set (futures := map _ (map fst platforms)).
  assert (Hfut : In (Raise e) futures).
  { unfold futures. apply in_map_iff. exists platform. split; [|exact Hin].
    rewrite (FindingNemoFacts.check_platform_eq _ _ _ _ _ Hget), Hraise.
    now rewrite Hforeign. }
  assert (Hcompleted : In (Raise e) (as_completed futures)).
  { apply (Permutation_in _ (Permutation_sym (Hperm futures)) Hfut). }
  destruct (drain_raises _ [] 0%nat _ Hcompleted) as (e' & Hd & He').
  exists e'. split; [exact Hd|].
  apply (Permutation_in _ (Hperm futures)) in He'.
  unfold futures in He'. apply in_map_iff in He' as (p & Hp & Hpin).
  now apply (check_platform_raises_only_foreign _ _ _ _ _ Hpin Hp).
Qed.

Lemma run_search_aborts_on_foreign_exception_witness :
  let session_get : Http :=
    fun target =>
      if contains "twitch" target
      then Raise (mkExc ValueError "check_hostname requires server_hostname")
      else Ok (mkResponse 200 "" "" [] None) in
  exists e',
    run_search load_platforms session_get (@rev _) "nemo" = Raise e'
    /\ is_RequestException (exc_class e') = false.
Proof.
  intros session_get.
  apply (run_search_aborts_on_foreign_exception load_platforms session_get
           (@rev _) "nemo" "Twitch"
           (mkPlatform "https://www.twitch.tv/{}"
              (Some ["the page you are looking for is unavailable"]))
           (mkExc ValueError "check_hostname requires server_hostname")).
  - intros futures. symmetry. apply Permutation_rev.
  - reflexivity.
  - reflexivity.
  - reflexivity.
Defined.

(** X3: the log of an interactive session is a run of searches followed by
    at most one closing event.  Every name searched is a typed line with
    the blanks around it stripped, is not empty, and is not one of the
    words exit, quit and q in any mix of upper and lower case: an account
    of such a name cannot be looked up at the prompt. *)
Theorem interactive_mode_log
    (platforms : list (string * PlatformData)) (session_get : Http)
    (as_completed : list Future -> list Future) (inputs : list Input) :
  exists searches closing,
    interactive_mode platforms session_get as_completed inputs
      = searches ++ closing
    /\ Forall (fun ev =>
                 exists username outcome line,
                   ev = Search username outcome
                   /\ In (Line line) inputs
                   /\ username = strip line
                   /\ username <> ""
                   /\ lower username ∉ ["exit"; "quit"; "q"]) searches
    /\ (closing = [] \/ closing = [Goodbye] \/ closing = [Cancelled]).
Proof.
  induction inputs as [|[line|] rest IH]; cbn [interactive_mode].
  - exists [], []. auto.
  - destruct IH as (searches & closing & Heq & Hall & Hclose).
    assert (Hall' : Forall (fun ev =>
                 exists username outcome line0,
                   ev = Search username outcome
                   /\ In (Line line0) (Line line :: rest)
                   /\ username = strip line0
                   /\ username <> ""
                   /\ lower username ∉ ["exit"; "quit"; "q"]) searches).
    { eapply Forall_impl; [exact Hall|].
      intros ev (u & o & l & H1 & H2 & H3). exists u, o, l.
      split; [exact H1|]. split; [now right | exact H3]. }
    destruct (truthy (strip line)) eqn:Ht; cbn [negb].
    + destruct (bool_decide (lower (strip line) ∈ ["exit"; "quit"; "q"])) eqn:Hx.
      * exists [], [Goodbye]. auto.
      * apply bool_decide_eq_false in Hx.
        assert (Hthis : forall outcome,
                  exists username outcome0 line0,
                    Search (strip line) outcome = Search username outcome0
                    /\ In (Line line0) (Line line :: rest)
                    /\ username = strip line0
                    /\ username <> ""
                    /\ lower username ∉ ["exit"; "quit"; "q"]).
        { intros outcome. exists (strip line), outcome, line.
          split; [reflexivity|]. split; [now left|]. split; [reflexivity|].
          split; [now apply PromptFacts.truthy_nonempty | exact Hx]. }
        destruct (run_search _ _ _ _) as [r|e].
        -- exists (Search (strip line) (Ok r) :: searches), closing.
           rewrite Heq. split; [reflexivity|]. split; [|exact Hclose].
           constructor; [apply Hthis | exact Hall'].
        -- destruct (is_Exception (exc_class e)).
           ++ exists (Search (strip line) (Raise e) :: searches), closing.
              rewrite Heq. split; [reflexivity|]. split; [|exact Hclose].
              constructor; [apply Hthis | exact Hall'].
           ++ exists [Search (strip line) (Raise e)], [Cancelled].
              split; [reflexivity|]. split; [|auto].
              constructor; [apply Hthis | constructor].
    + exists searches, closing. auto.
  - exists [], [Cancelled]. auto.
Qed.

End SearchExtras.

(** * Further properties of server_recon.py *)

Module ReconExtras.
Import ServerRecon.

(** *** The target prompt *)

Lemma get_target_probed_upto (requests_get : Http) (n : nat)
    (inputs : list string) (t : string) :
  (length inputs <= n)%nat ->
  (get_target requests_get inputs).2 = Target t ->
  (exists line, In line inputs /\ strip line <> "" /\ t = validate_url (strip line))
  /\ In (Requested t) (get_target requests_get inputs).1.
Proof.
  revert inputs. induction n as [|n IH]; intros [|line rest] Hlen;
    try (cbn in Hlen; lia); try (cbn; discriminate).
  cbn [get_target].
  assert (Hrest : (length rest <= n)%nat) by (cbn in Hlen; lia).
  destruct (truthy (strip line)) eqn:Ht.
  - apply PromptFacts.truthy_nonempty in Ht.
    set (v := validate_url (strip line)).
    assert (Hhere : forall t0, Target v = Target t0 ->
              (exists line0, In line0 (line :: rest) /\ strip line0 <> ""
                             /\ t0 = validate_url (strip line0))
              /\ In (Requested t0) [Requested v]).
    { intros t0 [= <-]. split; [|now left].
      exists line. split; [now left|]. now split. }
    destruct (requests_get v) as [response|e]; [exact (Hhere t)|].
    destruct (is_RequestException (exc_class e)); [|cbn; discriminate].
    destruct rest as [|choice rest']; [cbn; discriminate|].
    destruct (String.eqb (lower choice) "y"); [exact (Hhere t)|].
    specialize (IH rest').
    destruct (get_target requests_get rest') as [evs out]. cbn in *.
    intros Hout. destruct IH as [(l & Hl & Hs & Hv) Hin]; [lia | exact Hout |].
    split; [|now right]. exists l. split; [now right; right | now split].
  - specialize (IH rest Hrest).
    destruct (get_target requests_get rest) as [evs out]. cbn in *.
    intros Hout. destruct (IH Hout) as [(l & Hl & Hs & Hv) Hin].
    split; [|now right]. exists l. split; [now right | now split].
Qed.

(** X4: a target handed back by [get_target] always carries a scheme
    ("http://" or "https://"), is what [validate_url] makes of one of the
    typed lines with its surrounding blanks stripped, and has been requested
    once before it is returned, reachable or not. *)
Theorem get_target_returns_probed_url (requests_get : Http)
    (inputs : list string) (t : string) :
  (get_target requests_get inputs).2 = Target t ->
  startswith_any ["http://"; "https://"] t = true
  /\ (exists line,
        In line inputs /\ strip line <> "" /\ t = validate_url (strip line))
  /\ In (Requested t) (get_target requests_get inputs).1.
Proof.
  intros H.
  destruct (get_target_probed_upto requests_get (length inputs) inputs t
              (Nat.le_refl _) H) as [(line & Hl & Hs & ->) Hin].
  split; [apply ServerReconFacts.validate_url_scheme|].
  split; [|exact Hin]. now exists line.
Qed.

Lemma get_target_returns_probed_url_witness :
  let requests_get : Http :=
    fun _ => Raise (mkExc ConnectionError "Connection refused") in
  let inputs := [" "; "example.com  "; "n"; "10.0.0.1"; "Y"] in
  (get_target requests_get inputs).2 = Target "http://10.0.0.1"
  /\ startswith_any ["http://"; "https://"] "http://10.0.0.1" = true
  /\ (exists line,
        In line inputs /\ strip line <> ""
        /\ "http://10.0.0.1" = validate_url (strip line))
  /\ In (Requested "http://10.0.0.1") (get_target requests_get inputs).1.
Proof.
  intros requests_get inputs. split; [reflexivity|].
  exact (get_target_returns_probed_url requests_get inputs "http://10.0.0.1"
           eq_refl).
Defined.

(** *** The two scans *)

Section Paths.

Variable urljoin : string -> string -> string.
Variable requests_get : Http.
Variable url : string.

Lemma found_of_results (paths : list string)
    (results : list (option PathHit)) :
  map (check_hidden_path urljoin requests_get url) paths = map Ok results ->
  omap (fun r : option PathHit => (fun hit : PathHit => hit.1.1) <$> r) results
  = map (urljoin url)
      (filter (fun path =>
                 answers_with requests_get [200; 301; 302; 403]
                   (urljoin url path) = true) paths).
Proof.
  revert results. induction paths as [|path paths IH]; intros [|r results] H;
    try discriminate; [reflexivity|].
  cbn [map] in H. injection H as Hhead Htail.
  rewrite ServerReconFacts.check_hidden_path_eq in Hhead.
  injection Hhead as <-. specialize (IH _ Htail).
  destruct (answers_with requests_get [200; 301; 302; 403] (urljoin url path))
    eqn:E.
  - rewrite filter_cons_True by exact E. unfold answers_with in E.
    destruct (requests_get (urljoin url path)) as [response|e]; [|discriminate].
    rewrite E. cbn [map]. rewrite <- IH. reflexivity.
  - rewrite filter_cons_False by (rewrite E; discriminate).
    unfold answers_with in E. rewrite <- IH.
    destruct (requests_get (urljoin url path)) as [response|e]; [|reflexivity].
    rewrite E. reflexivity.
Qed.

(** X5: the paths [find_hidden_paths] reports as found are exactly the
    joined URLs of the listed paths whose request returned status 200, 301,
    302 or 403, in the order of the list; it never reports more paths than
    it probed, and it never raises. *)
Theorem probe_paths_found (paths : list string) :
  exists seen found_paths,
    probe_paths urljoin requests_get url paths = Ok (seen, found_paths)
    /\ found_paths
       = map (urljoin url)
           (filter (fun path =>
                      answers_with requests_get [200; 301; 302; 403]
                        (urljoin url path) = true) paths)
    /\ (length found_paths <= length paths)%nat
    /\ (forall test_url,
          In test_url found_paths <->
          exists path,
            In path paths /\ test_url = urljoin url path
            /\ exists response,
                 requests_get test_url = Ok response
                 /\ status_code response ∈ [200; 301; 302; 403]).
Proof.
  destruct (ServerReconFacts.probe_paths_eq urljoin requests_get url paths)
    as (results & Hmap & Hrun).
  rewrite (found_of_results _ _ Hmap) in Hrun.
  eexists _, _. split; [exact Hrun|]. split; [reflexivity|]. split.
  - rewrite length_map. apply length_filter.
  - intros test_url. rewrite in_map_iff. split.
    + intros (path & <- & Hin). apply list_elem_of_In in Hin.
      apply list_elem_of_filter in Hin as [Ha Hin]. exists path.
      split; [now apply list_elem_of_In|]. split; [reflexivity|].
      unfold answers_with in Ha.
      destruct (requests_get (urljoin url path)) as [response|e]; [|discriminate].
      exists response. split; [reflexivity | now apply bool_decide_eq_true in Ha].
    + intros (path & Hin & -> & response & Hr & Hs). exists path.
      split; [reflexivity|]. apply list_elem_of_In, list_elem_of_filter.
      split; [|now apply list_elem_of_In].
      unfold answers_with. rewrite Hr. now apply bool_decide_eq_true.
Qed.

End Paths.

(** X6: for the same host and port list, the threaded scan of server_recon
    and the sequential scan of info.py report the same open ports, in the
    order of the list; the ports reported are those whose result read from
    the pool says open. *)
Theorem port_scans_agree (sock : Sock) (hostname : string) (ports : list Z) :
  exists seen open_ports,
    scan_ports sock hostname ports = Ok (seen, open_ports)
    /\ Info.port_scan sock hostname ports = Ok open_ports
    /\ open_ports = map fst (filter (fun r : Z * bool => r.2 = true) seen)
    /\ sublist open_ports ports.
Proof.
  rewrite ServerReconFacts.scan_ports_eq, InfoFacts.port_scan_eq.
  eexists _, _. split; [reflexivity|]. split; [reflexivity|]. split.
  - induction ports as [|port ports IH]; [reflexivity|]. cbn [map].
    destruct (connects sock hostname port) eqn:E.
    + rewrite !filter_cons_True by (cbn; first [exact E | reflexivity]).
      cbn [map fst]. now rewrite <- IH.
    + rewrite !filter_cons_False by (cbn; rewrite ?E; discriminate).
      exact IH.
  - apply sublist_filter.
Qed.

(** *** robots.txt *)

Lemma rstrip_cons (c : ascii) (s : string) :
  rstrip (String c s)
  = match rstrip s with
    | EmptyString => if isspace c then EmptyString else String c EmptyString
    | r => String c r
    end.
Proof. reflexivity. Qed.

Lemma rstrip_idempotent (s : string) : rstrip (rstrip s) = rstrip s.
Proof.
  induction s as [|c s IH]; [reflexivity|]. rewrite rstrip_cons.
  destruct (rstrip s) as [|d r] eqn:E.
  - destruct (isspace c) eqn:Hc; [reflexivity|].
    rewrite rstrip_cons. cbn [rstrip]. now rewrite Hc.
  - rewrite rstrip_cons, IH. reflexivity.
Qed.

Lemma rstrip_keeps_head (c : ascii) (s : string) :
  isspace c = false -> exists r, rstrip (String c s) = String c r.
Proof.
  intros Hc. cbn [rstrip]. destruct (rstrip s) as [|d r].
  - rewrite Hc. now exists EmptyString.
  - now exists (String d r).
Qed.

Lemma lstrip_head (s : string) :
  lstrip s = EmptyString
  \/ exists c t, lstrip s = String c t /\ isspace c = false.
Proof.
  induction s as [|c s IH]; [now left|]. cbn [lstrip].
  destruct (isspace c) eqn:Hc; [exact IH|]. right. now exists c, s.
Qed.

(** A stripped string has nothing left to strip. *)
Lemma strip_idempotent (s : string) : strip (strip s) = strip s.
Proof.
  unfold strip. destruct (lstrip_head s) as [->|(c & t & -> & Hc)].
  - reflexivity.
  - destruct (rstrip_keeps_head c t Hc) as [r Hr]. rewrite Hr.
    cbn [lstrip]. rewrite Hc, <- Hr. apply rstrip_idempotent.
Qed.

(** What makes a stripped line a rule worth printing. *)
Lemma robots_rules_spec (lines : list string) (shown : Printed) :
  In shown (robots_rules lines) <->
  exists line,
    In line lines /\ shown = print ("  " +:+ strip line)
    /\ strip line <> ""
    /\ startswith "#" (strip line) = false
    /\ (contains "Disallow:" (strip line) = true
        \/ contains "Allow:" (strip line) = true).
Proof.
  induction lines as [|line rest IH]; cbn [robots_rules].
  - split; [intros [] | intros (l & [] & _)].
  - destruct (truthy (strip line) && negb (startswith "#" (strip line))
              && (contains "Disallow:" (strip line)
                  || contains "Allow:" (strip line))) eqn:E.
    + apply andb_true_iff in E as [E Hc]. apply andb_true_iff in E as [Ht Hh].
      apply PromptFacts.truthy_nonempty in Ht. apply negb_true_iff in Hh.
      apply orb_true_iff in Hc. split.
      * intros [<-|Hin].
        -- exists line. split; [now left|]. auto.
        -- apply IH in Hin as (l & Hl & Hrest). exists l. split; [now right | exact Hrest].
      * intros (l & [<-|Hl] & Hrest).
        -- left. symmetry. apply Hrest.
        -- right. apply IH. now exists l.
    + rewrite IH. split.
      * intros (l & Hl & Hrest). exists l. split; [now right | exact Hrest].
      * intros (l & [<-|Hl] & Hs & Hn & Hh & Hc); [|now exists l].
        exfalso. apply PromptFacts.truthy_nonempty in Hn.
        rewrite Hn, Hh in E. cbn in E.
        destruct Hc as [Hc|Hc]; rewrite Hc in E;
          [discriminate | rewrite orb_true_r in E; discriminate].
Qed.

(** The rules printed, as a list: the qualifying lines in the order of the
    body, each as often as it occurs. *)
Lemma robots_rules_eq (lines : list string) :
  robots_rules lines
  = map (fun line => print ("  " +:+ strip line))
      (filter (fun line =>
                 strip line <> ""
                 /\ startswith "#" (strip line) = false
                 /\ (contains "Disallow:" (strip line) = true
                     \/ contains "Allow:" (strip line) = true)) lines).
Proof.
  induction lines as [|line rest IH]; [reflexivity|]. cbn [robots_rules].
  destruct (truthy (strip line) && negb (startswith "#" (strip line))
            && (contains "Disallow:" (strip line)
                || contains "Allow:" (strip line))) eqn:E.
  - apply andb_true_iff in E as [E Hc]. apply andb_true_iff in E as [Ht Hh].
    apply PromptFacts.truthy_nonempty in Ht. apply negb_true_iff in Hh.
    apply orb_true_iff in Hc.
    rewrite filter_cons_True by auto. cbn [map]. now rewrite IH.
  - rewrite filter_cons_False; [exact IH|].
    intros (Hn & Hh & Hc). apply PromptFacts.truthy_nonempty in Hn.
    rewrite Hn, Hh in E. cbn in E.
    destruct Hc as [Hc|Hc]; rewrite Hc in E;
      [discriminate | rewrite orb_true_r in E; discriminate].
Qed.

(** X7: [check_robots_txt] never raises.  When the request returns status
    200 it prints, after the two headings, exactly the lines of the body
    that, once stripped, are not empty, do not start with "#" and contain
    "Disallow:" or "Allow:", in the order of the body and each as often as
    it occurs there, stripped and indented by two blanks; a printed rule
    has nothing left to strip.  With any other status or a failed request
    it prints one notice and no rule. *)
Theorem check_robots_txt_output (urljoin : string -> string -> string)
    (requests_get : Http) (url : string) :
  exists out,
    check_robots_txt urljoin requests_get url
      = Ok (print_header "ROBOTS.TXT ANALYSIS" :: out)
    /\ (forall response,
          requests_get (urljoin url "/robots.txt") = Ok response ->
          status_code response = 200 ->
          exists rules,
            out = print_success "robots.txt found!" :: rules
            /\ rules
               = map (fun line => print ("  " +:+ strip line))
                   (filter (fun line =>
                              strip line <> ""
                              /\ startswith "#" (strip line) = false
                              /\ (contains "Disallow:" (strip line) = true
                                  \/ contains "Allow:" (strip line) = true))
                           (split_on "010" (text response)))
            /\ forall shown,
                 In shown rules <->
                 exists rule,
                   shown = print ("  " +:+ rule)
                   /\ (exists line,
                         In line (split_on "010" (text response))
                         /\ rule = strip line)
                   /\ rule <> "" /\ strip rule = rule
                   /\ startswith "#" rule = false
                   /\ (contains "Disallow:" rule = true
                       \/ contains "Allow:" rule = true))
    /\ (forall response,
          requests_get (urljoin url "/robots.txt") = Ok response ->
          status_code response <> 200 ->
          out = [print_info "No robots.txt found or not accessible"])
    /\ (forall e,
          requests_get (urljoin url "/robots.txt") = Raise e ->
          out = [print_info "Failed to fetch robots.txt"]).
Proof.
  unfold check_robots_txt.
  destruct (requests_get (urljoin url "/robots.txt")) as [response|e] eqn:Hr;
    cbn [try_except bind].
  - destruct (status_code response =? 200) eqn:Hs; cbn [bind].
    + eexists. split; [reflexivity|]. split; [|split].
      * intros r [= <-] _. eexists. split; [reflexivity|].
        split; [apply robots_rules_eq|].
        intros shown. rewrite robots_rules_spec. split.
        -- intros (line & Hin & -> & Hn & Hh & Hc). exists (strip line).
           split; [reflexivity|]. split; [now exists line|].
           split; [exact Hn|]. split; [apply strip_idempotent | now split].
        -- intros (rule & -> & (line & Hin & ->) & Hn & _ & Hh & Hc).
           exists line. now repeat split.
      * intros r [= <-] Hne. apply Z.eqb_eq in Hs. contradiction.
      * discriminate.
    + eexists. split; [reflexivity|]. split; [|split].
      * intros r [= <-] He. apply Z.eqb_neq in Hs. contradiction.
      * reflexivity.
      * discriminate.
  - eexists. split; [reflexivity|]. split; [|split]; try discriminate.
    reflexivity.
Qed.

End ReconExtras.

(** * Further properties of info.py *)

Module GeoExtras.
Import Info.

(** One lookup: what it may change. *)
Lemma get_geolocation_effect (api : GeoApi) (st : GeoState) (ip : string) :
  let r := (get_geolocation api st ip).1 in
  let st' := (get_geolocation api st ip).2 in
  (forall key data,
     geo_cache st !! key = Some data -> geo_cache st' !! key = Some data)
  /\ (forall key, is_Some (geo_cache st' !! key) ->
                  is_Some (geo_cache st !! key) \/ key = ip)
  /\ (outbound st <= outbound st' <= S (outbound st))%nat
  /\ (forall data, r = Some data -> geo_cache st' !! ip = Some data)
  /\ (r = None -> geo_cache st' = geo_cache st).
Proof.
  unfold get_geolocation.
  destruct (geo_cache st !! ip) as [cached|] eqn:Hc; cbn.
  - repeat split; auto; try lia; try discriminate. now intros data [= <-].
  - destruct (fetch api (outbound st) ip) as [[fetched|]|e]; cbn;
      repeat split; auto; try lia; try discriminate.
    + intros key data Hk. rewrite lookup_insert_ne; [exact Hk | congruence].
    + intros key Hk. destruct (decide (ip = key)) as [->|Hne]; [now right|].
      left. now rewrite lookup_insert_ne in Hk.
    + intros data [= <-]. apply lookup_insert_eq.
Qed.

(** X8: a lookup that fails is not remembered.  When the address is not
    in the cache and the request raises, or answers with a status other
    than 200, or answers 200 with a body on which [json()] raises, the
    lookup returns [None] after exactly one outbound call and leaves the
    cache as it was; the next lookup of the same address calls the service
    again. *)
Theorem get_geolocation_failure_not_cached (api : GeoApi) (st : GeoState)
    (ip : string) :
  geo_cache st !! ip = None ->
  (exists e, api (outbound st) ("http://ip-api.com/json/" +:+ ip) = Raise e)
  \/ (exists response,
        api (outbound st) ("http://ip-api.com/json/" +:+ ip) = Ok response
        /\ (status_code response <> 200 \/ json response = None)) ->
  get_geolocation api st ip
    = (None, mkGeo (geo_cache st) (S (outbound st)))
  /\ forall later : GeoApi,
       outbound (get_geolocation later
                   (mkGeo (geo_cache st) (S (outbound st))) ip).2
       = S (S (outbound st)).
Proof.
  intros Hmiss Hfail. split.
  - unfold get_geolocation, fetch. rewrite Hmiss.
    destruct Hfail as [(e & ->)|(response & -> & Hbad)]; [reflexivity|].
    cbn [bind]. destruct (status_code response =? 200) eqn:Hs; [|reflexivity].
    apply Z.eqb_eq in Hs. destruct Hbad as [Hne| ->]; [contradiction|].
    reflexivity.
  - intros later. unfold get_geolocation. cbn [geo_cache outbound].
    rewrite Hmiss.
    now destruct (fetch later (S (outbound st)) ip) as [[fetched|]|e].
Qed.

Lemma get_geolocation_failure_not_cached_witness :
  let api : GeoApi := fun _ _ => Ok (mkResponse 429 "" "" [] None) in
  let st := mkGeo ∅ 0 in
  geo_cache st !! "192.0.2.7" = None
  /\ ((exists e, api 0%nat "http://ip-api.com/json/192.0.2.7" = Raise e)
      \/ (exists response,
            api 0%nat "http://ip-api.com/json/192.0.2.7" = Ok response
            /\ (status_code response <> 200 \/ json response = None)))
  /\ get_geolocation api st "192.0.2.7" = (None, mkGeo ∅ 1)
  /\ forall later : GeoApi,
       outbound (get_geolocation later (mkGeo ∅ 1) "192.0.2.7").2 = 2%nat.
Proof.
  intros api st.
  assert (Hmiss : geo_cache st !! "192.0.2.7" = None) by reflexivity.
  assert (Hfail :
    (exists e, api (outbound st) ("http://ip-api.com/json/" +:+ "192.0.2.7")
               = Raise e)
    \/ (exists response,
          api (outbound st) ("http://ip-api.com/json/" +:+ "192.0.2.7")
            = Ok response
          /\ (status_code response <> 200 \/ json response = None))).
  { right. eexists. split; [reflexivity|]. left. discriminate. }
  split; [exact Hmiss|]. split; [exact Hfail|].
  exact (get_geolocation_failure_not_cached api st "192.0.2.7" Hmiss Hfail).
Defined.

(** X9: over any series of lookups made one after the other, the cache only
    grows: an entry, once stored, is never changed or dropped; entries are
    only added for addresses that were looked up; at most one outbound call
    is made per lookup; and whatever data a lookup returned is what the
    cache holds for that address at the end, so two lookups of one address
    never return different data. *)
Theorem lookups_keep_cache (api : GeoApi) (st st' : GeoState)
    (ips : list string) (results : list (option GeoData)) :
  lookups api st ips = (results, st') ->
  length results = length ips
  /\ (forall key data,
        geo_cache st !! key = Some data -> geo_cache st' !! key = Some data)
  /\ (forall key, is_Some (geo_cache st' !! key) ->
                  is_Some (geo_cache st !! key) \/ In key ips)
  /\ (outbound st <= outbound st' <= outbound st + length ips)%nat
  /\ (forall i ip data,
        ips !! i = Some ip -> results !! i = Some (Some data) ->
        geo_cache st' !! ip = Some data).
Proof.
  revert st results. induction ips as [|ip rest IH]; intros st results.
  - cbn. intros [= <- <-].
    split; [reflexivity|]. split; [auto|]. split; [intros key Hk; now left|].
    split; [lia|]. intros i ip data H. discriminate.
  - cbn [lookups].
    pose proof (get_geolocation_effect api st ip) as (Hkeep & Hdom & Hout & Hsome & _).
    destruct (get_geolocation api st ip) as [r st1]. cbn in *.
    destruct (lookups api st1 rest) as [rs st2] eqn:Hrest.
    intros [= <- <-].
    destruct (IH _ _ Hrest) as (Hlen & Hkeep' & Hdom' & Hout' & Hres).
    split; [cbn; now rewrite Hlen|]. split; [auto|]. split; [|split].
    + intros key Hk. destruct (Hdom' key Hk) as [H|H]; [|now right; right].
      destruct (Hdom key H) as [H'| ->]; [now left | now right; left].
    + cbn [length]. lia.
    + intros [|i] ip0 data; cbn.
      * intros [= <-] [= ->]. apply Hkeep'. now apply Hsome.
      * apply Hres.
Qed.

Lemma lookups_keep_cache_witness :
  let api : GeoApi :=
    fun n target =>
      if contains "192.0.2.7" target
      then Ok (mkResponse 200 "" "" [] (Some {[ "city" := pretty n ]}))
      else Raise (mkExc ConnectTimeout "timed out") in
  let ips := ["192.0.2.7"; "198.51.100.9"; "192.0.2.7"] in
  exists results st',
    lookups api (mkGeo ∅ 0) ips = (results, st')
    /\ length results = 3%nat
    /\ outbound st' = 2%nat
    /\ (forall i ip data,
          ips !! i = Some ip -> results !! i = Some (Some data) ->
          geo_cache st' !! ip = Some data).
Proof.
  intros api ips. eexists _, _.
  assert (H : lookups api (mkGeo ∅ 0) ips
              = ([Some {[ "city" := "0" ]}; None; Some {[ "city" := "0" ]}],
                 mkGeo {[ "192.0.2.7" := {[ "city" := "0" ]} ]} 2))
    by (vm_compute; reflexivity).
  split; [exact H|]. split; [reflexivity|]. split; [reflexivity|].
  exact (proj2 (proj2 (proj2 (proj2
           (lookups_keep_cache api _ _ ips _ H))))).
Defined.

(** *** Interleaved lookups *)

Lemma step_effect (api : GeoApi) (st : GeoState) (w : Worker) :
  let st' := (step api st w).1 in
  let w' := (step api st w).2 in
  (outbound st' + may_call w' <= outbound st + may_call w)%nat
  /\ (outbound st <= outbound st')%nat
  /\ w_ip w' = w_ip w.
Proof.
  unfold step, may_call. destruct w as [ip pc]. cbn [w_pc w_ip].
  destruct pc as [| |data|r]; cbn.
  - destruct (geo_cache st !! ip); cbn;
      (split; [lia | split; [lia | reflexivity]]).
  - destruct (fetch api (outbound st) ip) as [[fetched|]|e]; cbn;
      (split; [lia | split; [lia | reflexivity]]).
  - split; [lia | split; [lia | reflexivity]].
  - split; [lia | split; [lia | reflexivity]].
Qed.

Lemma sum_may_call_insert (workers : list Worker) (i : nat) (w w' : Worker) :
  workers !! i = Some w ->
  (sum_list (may_call <$> <[i := w']> workers) + may_call w
   = sum_list (may_call <$> workers) + may_call w')%nat.
Proof.
  revert i. induction workers as [|v workers IH]; intros [|i] H;
    try discriminate.
  - injection H as ->. cbn. lia.
  - change (workers !! i = Some w) in H. specialize (IH _ H).
    change (may_call v + sum_list (may_call <$> <[i := w']> workers)
              + may_call w
            = may_call v + sum_list (may_call <$> workers) + may_call w')%nat.
    lia.
Qed.

Lemma run_effect (api : GeoApi) (schedule : list nat) (st : GeoState)
    (workers : list Worker) :
  let st' := (run api schedule st workers).1 in
  let workers' := (run api schedule st workers).2 in
  (outbound st' + sum_list (may_call <$> workers')
   <= outbound st + sum_list (may_call <$> workers))%nat
  /\ (outbound st <= outbound st')%nat
  /\ w_ip <$> workers' = w_ip <$> workers.
Proof.
  revert st workers. induction schedule as [|i rest IH]; intros st workers.
  - cbn. split; [lia|]. split; [lia | reflexivity].
  - cbn [run]. destruct (workers !! i) as [w|] eqn:Hw; [|apply IH].
    pose proof (step_effect api st w) as (Hpot & Hmono & Hip).
    destruct (step api st w) as [st1 w1]. cbn in Hpot, Hmono, Hip.
    pose proof (sum_may_call_insert workers i w w1 Hw) as Hsum.
    destruct (IH st1 (<[i := w1]> workers)) as (Hpot' & Hmono' & Hips).
    split; [lia|]. split; [lia|].
    rewrite Hips, list_fmap_insert, Hip.
    apply list_insert_id. now rewrite list_lookup_fmap, Hw.
Qed.

(** X10: however the steps of several workers interleave, a call of
    [get_geolocation] calls the service at most once: the number of
    outbound calls grows by no more than the number of workers, and the
    count never goes down. *)
Theorem run_calls_at_most_once_per_worker (api : GeoApi)
    (schedule : list nat) (st : GeoState) (workers : list Worker) :
  let st' := (run api schedule st workers).1 in
  let workers' := (run api schedule st workers).2 in
  (outbound st <= outbound st' <= outbound st + length workers)%nat
  /\ length workers' = length workers
  /\ w_ip <$> workers' = w_ip <$> workers.
Proof.
  intros st' workers'.
  destruct (run_effect api schedule st workers) as (Hpot & Hmono & Hips).
  fold st' workers' in Hpot, Hmono, Hips.
  assert (Hbound : forall ws : list Worker,
            (sum_list (may_call <$> ws) <= length ws)%nat).
  { induction ws as [|[ip pc] ws IHws]; cbn; [lia|].
    unfold may_call at 1. cbn. destruct pc; lia. }
  pose proof (Hbound workers). split; [lia|]. split; [|exact Hips].
  apply (f_equal length) in Hips. now rewrite !length_fmap in Hips.
Qed.

(** *** Banners *)

Lemma length_slice_to (n : nat) (s : string) :
  (String.length (slice_to n s) <= n)%nat.
Proof.
  revert s. induction n as [|n IH]; intros [|c s]; cbn; try lia.
  specialize (IH s). lia.
Qed.

Lemma slice_to_prefix (n : nat) (s : string) :
  startswith (slice_to n s) s = true.
Proof.
  revert s. induction n as [|n IH]; intros [|c s]; cbn; try reflexivity.
  destruct (ascii_dec c c); [apply IH | congruence].
Qed.

Lemma slice_to_short (n : nat) (s : string) :
  (String.length s <= n)%nat -> slice_to n s = s.
Proof.
  revert s. induction n as [|n IH]; intros [|c s]; cbn; try reflexivity.
  - lia.
  - intros H. rewrite IH; [reflexivity | lia].
Qed.

(** X11: the banner [get_service_info] returns is never longer than 200
    characters; it is the start of the received text with the surrounding
    blanks stripped, and the whole of it when that has at most 200
    characters.  The result is [None] exactly when the exchange raised. *)
Theorem get_service_info_banner (exchange : Exchange) (ip : string)
    (port : Z) :
  exists r,
    get_service_info exchange ip port = Ok r
    /\ (r = None <-> exists e, exchange ip port (greeting port) = Raise e)
    /\ forall banner,
         r = Some banner ->
         (String.length banner <= 200)%nat
         /\ exists received,
              exchange ip port (greeting port) = Ok received
              /\ startswith banner (strip received) = true
              /\ ((String.length (strip received) <= 200)%nat ->
                  banner = strip received).
Proof.
  unfold get_service_info.
  destruct (exchange ip port (greeting port)) as [received|e];
    cbn [try_except bind].
  - pose proof (length_slice_to 200 (strip received)) as Hlen.
    pose proof (slice_to_prefix 200 (strip received)) as Hpre.
    pose proof (slice_to_short 200 (strip received)) as Hshort.
    remember (slice_to 200 (strip received)) as cut eqn:Hcut.
    exists (Some cut). split; [reflexivity|]. split.
    + split; [discriminate | intros [e [=]]].
    + intros banner Hb. assert (banner = cut) as -> by congruence.
      split; [exact Hlen|]. exists received. split; [reflexivity|].
      split; [exact Hpre | exact Hshort].
  - eexists. split; [reflexivity|]. split.
    + split; [intros _; now exists e | reflexivity].
    + discriminate.
Qed.

End GeoExtras.

Module MonitorExtras.
Import Info.

(** *** Resolution *)

Lemma collect_ips_spec (addr_info : list (string * string))
    (ips : gset string) (canonname : option string) :
  (forall ip,
     ip ∈ (collect_ips addr_info ips canonname).1 <->
     ip ∈ ips \/ exists name, In (name, ip) addr_info)
  /\ ((collect_ips addr_info ips canonname).2 = None ->
      canonname = None /\ addr_info = []).
Proof.
  revert ips canonname.
  induction addr_info as [|[name ip0] rest IH]; intros ips canonname.
  - cbn. split; [|auto]. intros ip. split; [now left|].
    intros [H|(name & [])]. exact H.
  - cbn [collect_ips]. destruct (IH ({[ip0]} ∪ ips) (Some name)) as [Hin Hnone].
    split.
    + intros ip. rewrite Hin, elem_of_union, elem_of_singleton. split.
      * intros [[->|H]|(n & H)].
        -- right. exists name. now left.
        -- now left.
        -- right. exists n. now right.
      * intros [H|(n & [[= -> ->]|H])].
        -- left. now right.
        -- left. now left.
        -- right. now exists n.
    + intros H. destruct (Hnone H) as [[=] _].
Qed.

(** X12: a successful resolution comes from a non-empty answer of
    [getaddrinfo].  It names the host asked for, its primary address is the
    answer of [gethostbyname], its address list holds every address of the
    [getaddrinfo] answer exactly once, and its canonical name is never the
    host name itself. *)
Theorem resolve_hostname_resolved (unbound_local_message : string)
    (w : World) (hostname primary_ip : string) (all_ips : list string)
    (name : string) (canonical_name : option string) :
  resolve_hostname unbound_local_message w hostname
    = Ok (Resolved primary_ip all_ips name canonical_name) ->
  exists addr_info,
    getaddrinfo w hostname = DnsOk addr_info
    /\ addr_info <> []
    /\ gethostbyname w hostname = DnsOk primary_ip
    /\ name = hostname
    /\ NoDup all_ips
    /\ (forall ip, In ip all_ips <-> exists n, In (n, ip) addr_info)
    /\ canonical_name <> Some hostname.
Proof.
  unfold resolve_hostname, resolving.
  destruct (getaddrinfo w hostname) as [addr_info|text|e]; try discriminate.
  2: { destruct (is_Exception (exc_class e)); discriminate. }
  pose proof (collect_ips_spec addr_info ∅ None) as [Hin _].
  destruct (collect_ips addr_info ∅ None) as [ips canonname] eqn:Hc.
  cbn in Hin.
  destruct (gethostbyname w hostname) as [p|text|e]; try discriminate.
  2: { destruct (is_Exception (exc_class e)); discriminate. }
  destruct canonname as [canonname|]; [|discriminate].
  intros [= <- <- <- <-]. exists addr_info.
  split; [reflexivity|]. split; [intros ->; discriminate|].
  split; [reflexivity|]. split; [reflexivity|].
  split; [apply NoDup_elements|]. split.
  - intros ip. rewrite <- list_elem_of_In, elem_of_elements, Hin.
    split; [intros [H|H]; [set_solver | exact H] | now right].
  - destruct (String.eqb canonname hostname) eqn:E; [discriminate|].
    intros [= ->]. now rewrite String.eqb_refl in E.
Qed.

Lemma resolve_hostname_resolved_witness :
  let w := mkWorld
    (fun _ => DnsOk [("", "192.0.2.7"); ("", "192.0.2.8"); ("", "192.0.2.7")])
    (fun _ => DnsOk "192.0.2.7")
    (fun _ => Ok 0) (fun _ => Raise (mkExc OSError "Unknown host"))
    (fun _ _ => Raise (mkExc ConnectTimeout "timed out"))
    (fun _ _ => Ok 111)
    (fun _ => Raise (mkExc ConnectionError "Connection refused"))
    "2024-01-01T00:00:00" in
  exists all_ips,
    resolve_hostname "unbound" w "example.com"
      = Ok (Resolved "192.0.2.7" all_ips "example.com" (Some ""))
    /\ NoDup all_ips
    /\ (forall ip,
          In ip all_ips <->
          exists n, In (n, ip)
                      [("", "192.0.2.7"); ("", "192.0.2.8"); ("", "192.0.2.7")]).
Proof.
  intros w. eexists.
  assert (H : resolve_hostname "unbound" w "example.com"
              = Ok (Resolved "192.0.2.7"
                      (elements ({[ "192.0.2.7" ]} ∪ ({[ "192.0.2.8" ]}
                                 ∪ ({[ "192.0.2.7" ]} ∪ ∅)) : gset string))
                      "example.com" (Some ""))) by reflexivity.
  split; [exact H|].
  destruct (resolve_hostname_resolved "unbound" w "example.com" _ _ _ _ H)
    as (addr_info & Ha & _ & _ & _ & Hnd & Hin & _).
  injection Ha as <-. split; [exact Hnd | exact Hin].
Defined.

(** *** One scan *)

Section Gather.

Variable unbound_local_message : string.
Variable w : World.
Variable st : GeoState.
Variable hostname : string.

Lemma gather_eq :
  gather_comprehensive_info unbound_local_message w st hostname =
  match resolve_hostname unbound_local_message w hostname with
  | Raise e => Raise e
  | Ok (ResolutionError _) => Ok (None, st)
  | Ok (Resolved primary_ip all_ips _ _) =>
      Ok (Some (mkReport primary_ip all_ips
                  (get_geolocation (geo_api w) st primary_ip).1
                  (filter (fun port => connects (connect_ex w) primary_ip port = true)
                          default_ports)
                  (match requests_get w ("http://" +:+ primary_ip) with
                   | Ok response => Some (http_info_of response via_http)
                   | Raise _ =>
                       match requests_get w ("https://" +:+ primary_ip) with
                       | Ok response => Some (http_info_of response via_https)
                       | Raise _ => None
                       end
                   end)
                  (match ping w primary_ip with
                   | Ok returncode => returncode =? 0
                   | Raise _ => false
                   end)
                  (match gethostbyaddr w primary_ip with
                   | Ok name => Some name
                   | Raise _ => None
                   end)
                  (now w)),
          (get_geolocation (geo_api w) st primary_ip).2)
  end.
Proof.
  unfold gather_comprehensive_info.
  destruct (resolve_hostname unbound_local_message w hostname)
    as [[primary_ip all_ips name canonical|error]|e]; cbn [bind];
    [|reflexivity|reflexivity].
  unfold ping_server, get_reverse_dns.
  rewrite InfoFacts.port_scan_eq, InfoFacts.get_http_headers_eq.
  destruct (get_geolocation (geo_api w) st primary_ip) as [geo_data st1].
  destruct (ping w primary_ip), (gethostbyaddr w primary_ip); reflexivity.
Qed.

(** X13: a scan whose resolution fails probes nothing: it returns [None]
    and leaves the geolocation cache and the call counter untouched.  And
    whenever a scan returns, it returns a report exactly when the
    resolution succeeded, and the report is about the primary address: its
    geolocation is the result of the lookup of that address, which is what
    the cache holds for it afterwards, its open ports are the default
    ports that accepted a connection, in the order of the default list,
    and the host counts as responsive exactly when ping returned 0. *)
Theorem gather_comprehensive_info_report :
  (forall error,
     resolve_hostname unbound_local_message w hostname
       = Ok (ResolutionError error) ->
     gather_comprehensive_info unbound_local_message w st hostname
       = Ok (None, st))
  /\ forall current_data st',
       gather_comprehensive_info unbound_local_message w st hostname
         = Ok (current_data, st') ->
       match resolve_hostname unbound_local_message w hostname with
       | Raise _ => False
       | Ok (ResolutionError _) => current_data = None /\ st' = st
       | Ok (Resolved primary_ip all_ips _ _) =>
           exists report,
             current_data = Some report
             /\ get_geolocation (geo_api w) st primary_ip
                = (report_geolocation report, st')
             /\ report_ip report = primary_ip
             /\ report_all_ips report = all_ips
             /\ (forall data,
                   report_geolocation report = Some data ->
                   geo_cache st' !! primary_ip = Some data)
             /\ sublist (report_open_ports report) default_ports
             /\ (forall port,
                   port ∈ report_open_ports report <->
                   port ∈ default_ports
                   /\ connect_ex w primary_ip port = Ok 0)
             /\ (report_responsive report = true <->
                   ping w primary_ip = Ok 0)
       end.
Proof.
  rewrite gather_eq. split.
  - intros error ->. reflexivity.
  - intros current_data st'.
    destruct (resolve_hostname unbound_local_message w hostname)
      as [[primary_ip all_ips name canonical|error]|e];
      [| intros [= <- <-]; now split | discriminate].
    intros [= <- <-]. eexists. split; [reflexivity|].
    cbn [report_geolocation report_ip report_all_ips report_open_ports
         report_responsive].
    split; [now destruct (get_geolocation _ _ _)|].
    split; [reflexivity|]. split; [reflexivity|]. split; [|split; [|split]].
    + apply (GeoExtras.get_geolocation_effect (geo_api w) st primary_ip).
    + apply sublist_filter.
    + intros port. rewrite list_elem_of_filter. unfold connects.
      split.
      * intros [Hc Hin]. split; [exact Hin|].
        destruct (connect_ex w primary_ip port) as [result|e]; [|discriminate].
        apply Z.eqb_eq in Hc. now subst.
      * intros [Hin ->]. now split.
    + destruct (ping w primary_ip) as [returncode|e].
      * rewrite Z.eqb_eq. split; [now intros -> | now intros [= ->]].
      * split; discriminate.
Qed.

End Gather.

(** *** The monitoring loop *)

Section Monitoring.

Variable unbound_local_message : string.
Variable hostname : string.

Lemma monitoring_loop_cons (w : World) (rest : list World) (tool : Tool) :
  monitoring_loop unbound_local_message (w :: rest) hostname tool =
  match gather_comprehensive_info unbound_local_message w (geo tool) hostname with
  | Raise e => (tool, [], Some e)
  | Ok (current_data, st) =>
      let next :=
        monitoring_loop unbound_local_message rest hostname
          (record_scan tool current_data st).1 in
      (next.1.1, (record_scan tool current_data st).2 ++ next.1.2, next.2)
  end.
Proof.
  cbn [monitoring_loop].
  destruct (gather_comprehensive_info _ _ _ _) as [[current_data st]|e];
    [|reflexivity].
  destruct (record_scan tool current_data st) as [tool' shown].
  now destruct (monitoring_loop _ _ _ _) as [[final later] e].
Qed.

(** What one pass may hand to [record_scan]. *)
Lemma gather_cases (w : World) (st st' : GeoState)
    (current_data : option Report) :
  gather_comprehensive_info unbound_local_message w st hostname
    = Ok (current_data, st') ->
  (current_data = None /\ st' = st)
  \/ exists report,
       current_data = Some report
       /\ st' = (get_geolocation (geo_api w) st (report_ip report)).2.
Proof.
  rewrite gather_eq.
  destruct (resolve_hostname unbound_local_message w hostname)
    as [[primary_ip all_ips name canonical|error]|e]; [| |discriminate].
  - intros [= <- <-]. right. eexists. split; reflexivity.
  - intros [= <- <-]. now left.
Qed.

Lemma size_add_server (servers : gset string) (ip : string) :
  ip ∉ servers -> size ({[ip]} ∪ servers) = S (size servers).
Proof.
  intros H. rewrite size_union by set_solver. now rewrite size_singleton.
Qed.

Lemma monitoring_loop_invariant (worlds : list World) (tool : Tool) :
  (forall key, is_Some (geo_cache (geo tool) !! key) ->
               key ∈ scanned_servers tool) ->
  (size (scanned_servers tool) <= scan_count tool)%nat ->
  let final := (monitoring_loop unbound_local_message worlds hostname tool).1.1 in
  (forall key, is_Some (geo_cache (geo final) !! key) ->
               key ∈ scanned_servers final)
  /\ (size (scanned_servers final) <= scan_count final)%nat
  /\ (scan_count tool <= scan_count final <= scan_count tool + length worlds)%nat
  /\ running final = running tool.
Proof.
  revert tool. induction worlds as [|w rest IH]; intros tool Hdom Hsize.
  - cbn. split; [exact Hdom|]. split; [exact Hsize|]. split; [lia | reflexivity].
  - rewrite monitoring_loop_cons.
    destruct (gather_comprehensive_info _ _ _ _) as [[current_data st]|e] eqn:Hg.
    + cbn [fst snd]. set (tool' := (record_scan tool current_data st).1).
      assert (Hcount : scan_count tool' = S (scan_count tool)) by reflexivity.
      assert (Hrun : running tool' = running tool) by reflexivity.
      assert (Hgeo : geo tool' = st) by reflexivity.
      assert (Hservers : scanned_servers tool' =
                match current_data with
                | Some data =>
                    if bool_decide (report_ip data ∈ scanned_servers tool)
                    then scanned_servers tool
                    else {[report_ip data]} ∪ scanned_servers tool
                | None => scanned_servers tool
                end) by reflexivity.
      clearbody tool'.
      destruct (IH tool') as (H1 & H2 & H3 & H4).
      * rewrite Hgeo, Hservers.
        apply gather_cases in Hg as [[-> ->]|(report & -> & ->)].
        -- exact Hdom.
        -- intros key Hk.
           destruct (GeoExtras.get_geolocation_effect (geo_api w) (geo tool)
                       (report_ip report)) as (_ & Hnew & _).
           destruct (Hnew key Hk) as [Hold| ->].
           ++ apply Hdom in Hold.
              case_bool_decide; [exact Hold | apply elem_of_union; now right].
           ++ case_bool_decide; [assumption|].
              apply elem_of_union. left. now apply elem_of_singleton.
      * rewrite Hcount, Hservers.
        destruct current_data as [report|]; [|lia].
        case_bool_decide; [lia|]. rewrite size_add_server by assumption. lia.
      * split; [exact H1|]. split; [exact H2|].
        split; [cbn [length]; lia | congruence].
    + cbn. split; [exact Hdom|]. split; [exact Hsize|].
      split; [lia | reflexivity].
Qed.

Lemma size_add_server_le (servers : gset string) (ip : string) :
  (size ({[ip]} ∪ servers) <= S (size servers))%nat.
Proof.
  destruct (decide (ip ∈ servers)) as [Hin|Hout].
  - apply Nat.le_trans with (size servers); [|lia].
    apply subseteq_size. intros key Hk. apply elem_of_union in Hk as [Hk|Hk].
    + apply elem_of_singleton in Hk. now subst.
    + exact Hk.
  - now rewrite size_add_server.
Qed.

(** The attributes in the middle of a pass, for a tool whose cached
    addresses are all counted as servers and that has not counted more
    servers than scans. *)
Lemma tool_at_figures (w : World) (tool : Tool) (m : Moment)
    (current_data : option Report) (st : GeoState) :
  (forall key, is_Some (geo_cache (geo tool) !! key) ->
               key ∈ scanned_servers tool) ->
  (size (scanned_servers tool) <= scan_count tool)%nat ->
  gather_comprehensive_info unbound_local_message w (geo tool) hostname
    = Ok (current_data, st) ->
  let t := tool_at m tool current_data st in
  (size (geo_cache (geo t)) <= S (size (scanned_servers t)))%nat
  /\ (size (scanned_servers t) <= S (scan_count t))%nat
  /\ (scan_count tool <= scan_count t <= S (scan_count tool))%nat
  /\ running t = running tool
  /\ (m <> AfterLookup ->
      (size (geo_cache (geo t)) <= size (scanned_servers t))%nat)
  /\ (m <> AfterServerAdded ->
      (size (scanned_servers t) <= scan_count t)%nat).
Proof.
  intros Hdom Hsize Hg.
  set (servers' := scanned_servers (record_scan tool current_data st).1).
  assert (Hservers : servers' =
            match current_data with
            | Some data =>
                if bool_decide (report_ip data ∈ scanned_servers tool)
                then scanned_servers tool
                else {[report_ip data]} ∪ scanned_servers tool
            | None => scanned_servers tool
            end) by reflexivity.
  assert (Hold : (size (geo_cache (geo tool)) <= size (scanned_servers tool))%nat).
  { rewrite <- size_dom. apply subseteq_size.
    intros key Hk. apply elem_of_dom in Hk. now apply Hdom. }
  assert (Hgrow : (size servers' <= S (size (scanned_servers tool)))%nat).
  { rewrite Hservers. destruct current_data as [report|]; [|lia].
    case_bool_decide; [lia | apply size_add_server_le]. }
  assert (Hcache : forall key, is_Some (geo_cache st !! key) -> key ∈ servers').
  { rewrite Hservers.
    apply gather_cases in Hg as [[-> ->]|(report & -> & ->)]; [exact Hdom|].
    intros key Hk.
    destruct (GeoExtras.get_geolocation_effect (geo_api w) (geo tool)
                (report_ip report)) as (_ & Hnew & _).
    destruct (Hnew key Hk) as [Hin| ->].
    - apply Hdom in Hin.
      case_bool_decide; [exact Hin | apply elem_of_union; now right].
    - case_bool_decide; [assumption|].
      apply elem_of_union. left. now apply elem_of_singleton. }
  assert (Hnew : (size (geo_cache st) <= size servers')%nat).
  { rewrite <- size_dom. apply subseteq_size.
    intros key Hk. apply elem_of_dom in Hk. now apply Hcache. }
  destruct m; cbn [tool_at geo scanned_servers scan_count running];
    fold servers'.
  - repeat split; try lia.
  - split; [lia|]. split; [lia|]. split; [lia|]. split; [reflexivity|].
    split; [congruence | lia].
  - split; [lia|]. split; [lia|]. split; [lia|]. split; [reflexivity|].
    split; [lia | congruence].
  - change (geo (record_scan tool current_data st).1) with st.
    change (scan_count (record_scan tool current_data st).1)
      with (S (scan_count tool)).
    change (running (record_scan tool current_data st).1) with (running tool).
    split; [lia|]. split; [lia|]. split; [lia|]. split; [reflexivity|].
    split; intros _; lia.
Qed.

(** X14: the figures of the final summary, for a fresh tool that is
    stopped at any moment.  When the interrupt arrives between two passes,
    the summary shows no more cached geolocations than unique servers and
    no more unique servers than scans.  In the middle of a pass each of the
    two can be ahead by one, and by no more: the geolocations only between
    the store into the cache and the update of the server set, the servers
    only between that update and the increment of the scan counter.  The
    tool is marked as not running. *)
Theorem final_summary_ordered (worlds : list World)
    (last : option (World * Moment)) (tool : Tool)
    (shown : list Status) (summary : Summary) :
  continuous_monitoring unbound_local_message worlds last hostname init
    = Ok (tool, shown, summary) ->
  (geolocation_queries summary <= S (unique_servers summary))%nat
  /\ (unique_servers summary <= S (total_scans summary))%nat
  /\ (total_scans summary <= S (length worlds))%nat
  /\ running tool = false
  /\ ((forall w, last <> Some (w, AfterLookup)) ->
      (geolocation_queries summary <= unique_servers summary)%nat)
  /\ ((forall w, last <> Some (w, AfterServerAdded)) ->
      (unique_servers summary <= total_scans summary)%nat)
  /\ (last = None -> (total_scans summary <= length worlds)%nat).
Proof.
  unfold continuous_monitoring. cbn [scan_count scanned_servers geo init].
  pose proof (monitoring_loop_invariant worlds (mkTool true 0 ∅ (mkGeo ∅ 0)))
    as Hinv.
  destruct (monitoring_loop _ _ _ _) as [[final later] e]. cbn in Hinv.
  destruct Hinv as (Hdom & Hsize & Hcount & _).
  { intros key [data H]. now rewrite lookup_empty in H. }
  { rewrite size_empty. lia. }
  assert (Hold : (size (geo_cache (geo final)) <= size (scanned_servers final))%nat).
  { rewrite <- size_dom. apply subseteq_size.
    intros key Hk. apply elem_of_dom in Hk. now apply Hdom. }
  assert (Hstopped : forall t0,
            (size (geo_cache (geo t0)) <= S (size (scanned_servers t0)))%nat ->
            (size (scanned_servers t0) <= S (scan_count t0))%nat ->
            (scan_count t0 <= S (length worlds))%nat ->
            ((forall w, last <> Some (w, AfterLookup)) ->
             (size (geo_cache (geo t0)) <= size (scanned_servers t0))%nat) ->
            ((forall w, last <> Some (w, AfterServerAdded)) ->
             (size (scanned_servers t0) <= scan_count t0)%nat) ->
            (last = None -> (scan_count t0 <= length worlds)%nat) ->
            (let '(t', su) := stop t0 in Ok (t', later, su))
              = Ok (tool, shown, summary) ->
            (geolocation_queries summary <= S (unique_servers summary))%nat
            /\ (unique_servers summary <= S (total_scans summary))%nat
            /\ (total_scans summary <= S (length worlds))%nat
            /\ running tool = false
            /\ ((forall w, last <> Some (w, AfterLookup)) ->
                (geolocation_queries summary <= unique_servers summary)%nat)
            /\ ((forall w, last <> Some (w, AfterServerAdded)) ->
                (unique_servers summary <= total_scans summary)%nat)
            /\ (last = None -> (total_scans summary <= length worlds)%nat)).
  { intros t0 H1 H2 H3 H4 H5 H6. unfold stop, print_final_summary.
    intros [= <- <- <-].
    cbn [geolocation_queries unique_servers total_scans running geo
         scanned_servers scan_count].
    auto 10. }
  assert (Hfinal : (let '(t', su) := stop final in Ok (t', later, su))
                     = Ok (tool, shown, summary) ->
                   (geolocation_queries summary <= S (unique_servers summary))%nat
                   /\ (unique_servers summary <= S (total_scans summary))%nat
                   /\ (total_scans summary <= S (length worlds))%nat
                   /\ running tool = false
                   /\ ((forall w, last <> Some (w, AfterLookup)) ->
                       (geolocation_queries summary <= unique_servers summary)%nat)
                   /\ ((forall w, last <> Some (w, AfterServerAdded)) ->
                       (unique_servers summary <= total_scans summary)%nat)
                   /\ (last = None -> (total_scans summary <= length worlds)%nat)).
  { apply Hstopped; intros; lia. }
  destruct e as [e|].
  { destruct (exc_class e); try discriminate. exact Hfinal. }
  destruct last as [[w m]|]; [|exact Hfinal].
  destruct (gather_comprehensive_info unbound_local_message w (geo final) hostname)
    as [[current_data st]|e] eqn:Hg.
  2: { destruct (exc_class e); try discriminate. exact Hfinal. }
  destruct (tool_at_figures w final m current_data st Hdom Hsize Hg)
    as (F1 & F2 & F3 & _ & F5 & F6).
  apply Hstopped.
  - exact F1.
  - exact F2.
  - lia.
  - intros H. apply F5. intros ->. now apply (H w).
  - intros H. apply F6. intros ->. now apply (H w).
  - discriminate.
Qed.

(** A pass over a host whose address is already cached and already
    counted changes nothing but the scan counter. *)
Lemma monitoring_loop_warm (ip : string) (data : GeoData)
    (worlds : list World) (tool : Tool) :
  geo_cache (geo tool) !! ip = Some data ->
  ip ∈ scanned_servers tool ->
  Forall (fun w =>
            exists all_ips canonical,
              resolve_hostname unbound_local_message w hostname
                = Ok (Resolved ip all_ips hostname canonical)) worlds ->
  let r := monitoring_loop unbound_local_message worlds hostname tool in
  r.2 = None
  /\ scan_count r.1.1 = (scan_count tool + length worlds)%nat
  /\ scanned_servers r.1.1 = scanned_servers tool
  /\ geo r.1.1 = geo tool.
Proof.
  revert tool. induction worlds as [|w rest IH]; intros tool Hcache Hin Hall.
  - cbn. repeat split. lia.
  - apply Forall_cons in Hall as [(all_ips & canonical & Hres) Hall].
    rewrite monitoring_loop_cons, gather_eq, Hres.
    rewrite (InfoFacts.get_geolocation_hit _ _ _ _ Hcache).
    cbn [fst snd report_ip]. unfold record_scan. cbn [fst report_ip].
    rewrite bool_decide_eq_true_2 by exact Hin.
    match goal with
    | |- context [monitoring_loop _ rest hostname ?t] => set (tool' := t)
    end.
    destruct (IH tool') as (H1 & H2 & H3 & H4); [exact Hcache | exact Hin | exact Hall |].
    cbn [fst snd]. split; [exact H1|]. split; [|split].
    + rewrite H2. cbn. lia.
    + exact H3.
    + exact H4.
Qed.

(** X15: monitoring a host whose address does not change costs one
    geolocation call, however many scans are made.  When every scan
    resolves the host to the same address and the service answers the
    first call with data, then after any number of scans the call counter
    stands at 1, the cache holds that one entry, one unique server is
    counted, and every scan was counted. *)
Theorem stable_host_one_geolocation_call (ip : string) (data : GeoData)
    (first : World) (rest : list World) :
  Forall (fun w =>
            exists all_ips canonical,
              resolve_hostname unbound_local_message w hostname
                = Ok (Resolved ip all_ips hostname canonical))
         (first :: rest) ->
  fetch (geo_api first) 0 ip = Ok (Some data) ->
  let r := monitoring_loop unbound_local_message (first :: rest) hostname init in
  r.2 = None
  /\ scan_count r.1.1 = S (length rest)
  /\ scanned_servers r.1.1 = {[ip]}
  /\ geo_cache (geo r.1.1) = {[ip := data]}
  /\ outbound (geo r.1.1) = 1%nat.
Proof.
  intros Hall Hfetch.
  apply Forall_cons in Hall as [(all_ips & canonical & Hres) Hall].
  rewrite monitoring_loop_cons, gather_eq, Hres.
  assert (Hgeo : get_geolocation (geo_api first) (geo init) ip
                 = (Some data, mkGeo {[ip := data]} 1)).
  { unfold get_geolocation. cbn [geo init geo_cache outbound].
    rewrite lookup_empty, Hfetch. now rewrite insert_empty. }
  rewrite Hgeo. cbn [fst snd]. unfold record_scan.
  cbn [fst report_ip init scanned_servers scan_count running].
  rewrite bool_decide_eq_false_2 by apply not_elem_of_empty.
  rewrite union_empty_r_L.
  match goal with
  | |- context [monitoring_loop _ rest hostname ?t] => set (tool' := t)
  end.
  assert (Hcache : geo_cache (geo tool') !! ip = Some data)
    by (cbn; apply lookup_singleton_eq).
  assert (Hin : ip ∈ scanned_servers tool')
    by (cbn; now apply elem_of_singleton).
  destruct (monitoring_loop_warm ip data rest tool' Hcache Hin Hall)
    as (H1 & H2 & H3 & H4).
  cbn [fst snd]. split; [exact H1|]. split; [rewrite H2; reflexivity|].
  split; [exact H3|]. now rewrite H4.
Qed.


End Monitoring.

Lemma final_summary_ordered_witness :
  let w := mkWorld
    (fun _ => DnsOk [("", "192.0.2.7"); ("", "192.0.2.8")])
    (fun _ => DnsOk "192.0.2.7")
    (fun _ => Ok 0) (fun _ => Raise (mkExc OSError "Unknown host"))
    (fun _ _ => Ok (mkResponse 200 "" "" [] (Some {[ "country" := "Norway" ]})))
    (fun _ port => if port =? 443 then Ok 0 else Ok 111)
    (fun _ => Raise (mkExc ConnectionError "Connection refused"))
    "2024-01-01T00:00:00" in
  let down := mkWorld
    (fun _ => DnsGaierror "Name or service not known")
    (fun _ => DnsGaierror "Name or service not known")
    (fun _ => Ok 1) (fun _ => Raise (mkExc OSError "Unknown host"))
    (fun _ _ => Raise (mkExc ConnectTimeout "timed out"))
    (fun _ _ => Ok 111)
    (fun _ => Raise (mkExc ConnectionError "Connection refused"))
    "2024-01-01T00:00:30" in
  exists tool shown summary,
    continuous_monitoring "unbound" [w; down; w; w] None "example.com" init
      = Ok (tool, shown, summary)
    /\ (geolocation_queries summary <= unique_servers summary)%nat
    /\ (unique_servers summary <= total_scans summary)%nat
    /\ (total_scans summary <= 4)%nat
    /\ running tool = false.
Proof.
  intros w down.
  destruct (continuous_monitoring "unbound" [w; down; w; w] None "example.com"
              init) as [[[tool shown] summary]|e] eqn:H.
  - exists tool, shown, summary. split; [reflexivity|].
    destruct (final_summary_ordered "unbound" "example.com" [w; down; w; w]
                None tool shown summary H)
      as (_ & _ & _ & Hrun & Hq & Hu & Ht).
    split; [apply Hq; discriminate|]. split; [apply Hu; discriminate|].
    split; [now apply Ht | exact Hrun].
  - exfalso. vm_compute in H. discriminate.
Defined.

(** The two figures that can be ahead, on a first pass that is interrupted:
    after the store into the cache the summary shows one geolocation and no
    server, and after the update of the server set one server and no
    scan. *)
Lemma summary_ahead_by_one_in_mid_pass :
  let w := mkWorld
    (fun _ => DnsOk [("", "192.0.2.7")])
    (fun _ => DnsOk "192.0.2.7")
    (fun _ => Ok 0) (fun _ => Raise (mkExc OSError "Unknown host"))
    (fun _ _ => Ok (mkResponse 200 "" "" [] (Some {[ "country" := "Norway" ]})))
    (fun _ _ => Ok 111)
    (fun _ => Raise (mkExc ConnectionError "Connection refused"))
    "2024-01-01T00:00:00" in
  let figures (r : Result (Tool * list Status * Summary)) :=
    match r with
    | Ok (_, _, su) =>
        Some (geolocation_queries su, unique_servers su, total_scans su)
    | Raise _ => None
    end in
  figures (continuous_monitoring "unbound" [] (Some (w, AfterLookup))
             "example.com" init) = Some (1, 0, 0)%nat
  /\ figures (continuous_monitoring "unbound" [] (Some (w, AfterServerAdded))
                "example.com" init) = Some (1, 1, 0)%nat
  /\ figures (continuous_monitoring "unbound" [] (Some (w, AfterCount))
                "example.com" init) = Some (1, 1, 1)%nat.
Proof. intros w figures. repeat split; vm_compute; reflexivity. Qed.

Lemma stable_host_one_geolocation_call_witness :
  let w := mkWorld
    (fun _ => DnsOk [("", "192.0.2.7")])
    (fun _ => DnsOk "192.0.2.7")
    (fun _ => Ok 0) (fun _ => Raise (mkExc OSError "Unknown host"))
    (fun _ _ => Ok (mkResponse 200 "" "" [] (Some {[ "country" := "Norway" ]})))
    (fun _ _ => Ok 111)
    (fun _ => Raise (mkExc ConnectionError "Connection refused"))
    "2024-01-01T00:00:00" in
  let r := monitoring_loop "unbound" [w; w; w; w; w] "example.com" init in
  Forall (fun w =>
            exists all_ips canonical,
              resolve_hostname "unbound" w "example.com"
                = Ok (Resolved "192.0.2.7" all_ips "example.com" canonical))
         [w; w; w; w; w]
  /\ fetch (geo_api w) 0 "192.0.2.7" = Ok (Some {[ "country" := "Norway" ]})
  /\ r.2 = None
  /\ scan_count r.1.1 = 5%nat
  /\ scanned_servers r.1.1 = {[ "192.0.2.7" ]}
  /\ geo_cache (geo r.1.1) = {[ "192.0.2.7" := {[ "country" := "Norway" ]} ]}
  /\ outbound (geo r.1.1) = 1%nat.
Proof.
  intros w r.
  assert (H1 : Forall (fun w =>
            exists all_ips canonical,
              resolve_hostname "unbound" w "example.com"
                = Ok (Resolved "192.0.2.7" all_ips "example.com" canonical))
         [w; w; w; w; w]).
  { repeat constructor; eexists _, _; reflexivity. }
  assert (H2 : fetch (geo_api w) 0 "192.0.2.7"
               = Ok (Some {[ "country" := "Norway" ]})) by reflexivity.
  split; [exact H1|]. split; [exact H2|].
  exact (stable_host_one_geolocation_call "unbound" "example.com" "192.0.2.7"
           {[ "country" := "Norway" ]} w [w; w; w; w] H1 H2).
Defined.

End MonitorExtras.
